(** * kern-convertor: FEA kerning to UFO plist conversion

    A shallow embedding of [kern-convertor.py] and [kern-groups.py].

    The feature-file parser, the font reader, the regular-expression engine,
    the plist serializer and the Unicode string methods of the interpreter
    are external libraries: each script takes them as the fields of a class
    [Externals].  The syntax tree they hand to the scripts is modelled by
    the attributes and [isinstance] tests the scripts perform on it.

    A Python [str] is held as its UTF-8 bytes; a prefix or substring test
    on the bytes is the test on the code points. *)

From Stdlib Require Import ZArith Ascii String.
From stdpp Require Import gmap strings list fin_maps pretty.

Local Open Scope string_scope.
Local Open Scope list_scope.
Local Open Scope stdpp_scope.

#[local] Set Warnings "-clear-no-such-hyp".

(** ** Python string operations

    [startswith], [in], slicing and [lstrip] with a given character are
    exact on UTF-8 text.  [upper], [lower], [isspace], [strip] and [split]
    are the ASCII parts of the Python methods: they are what Python
    computes on ASCII text, which is what line 162 of [kern-convertor.py]
    applies [lower] to (the lexer admits no other character in a lookup
    name), and they stand in for the Unicode methods in the sample
    libraries below.  [kern-groups.py] itself takes [str.upper],
    [str.split] and [str.strip] from its [Externals]. *)

Module Py.

Definition upper_ascii (c : ascii) : ascii :=
  let n := nat_of_ascii c in
  if (97 <=? n)%nat && (n <=? 122)%nat then ascii_of_nat (n - 32) else c.

Definition lower_ascii (c : ascii) : ascii :=
  let n := nat_of_ascii c in
  if (65 <=? n)%nat && (n <=? 90)%nat then ascii_of_nat (n + 32) else c.

Fixpoint upper (s : string) : string :=
  match s with
  | EmptyString => EmptyString
  | String c r => String (upper_ascii c) (upper r)
  end.

Fixpoint lower (s : string) : string :=
  match s with
  | EmptyString => EmptyString
  | String c r => String (lower_ascii c) (lower r)
  end.

(** [s.startswith(p)] *)
Fixpoint startswith (s p : string) : bool :=
  match p, s with
  | EmptyString, _ => true
  | String _ _, EmptyString => false
  | String a p', String b s' => if Ascii.eqb a b then startswith s' p' else false
  end.

(** [p in s] *)
Fixpoint contains (p s : string) : bool :=
  startswith s p ||
  match s with
  | EmptyString => false
  | String _ s' => contains p s'
  end.

(** [s[1:]], for a string whose first character is ASCII. *)
Definition tail (s : string) : string :=
  match s with
  | EmptyString => EmptyString
  | String _ r => r
  end.

(** [s.lstrip(chars)] for a one-character ASCII [chars]. *)
Fixpoint lstrip_char (a : ascii) (s : string) : string :=
  match s with
  | EmptyString => EmptyString
  | String c r => if Ascii.eqb c a then lstrip_char a r else s
  end.

(** The characters [str.isspace] accepts below 128. *)
Definition isspace (c : ascii) : bool :=
  let n := nat_of_ascii c in
  ((9 <=? n)%nat && (n <=? 13)%nat) || ((28 <=? n)%nat && (n <=? 32)%nat).

Fixpoint lstrip (s : string) : string :=
  match s with
  | EmptyString => EmptyString
  | String c r => if isspace c then lstrip r else s
  end.

Fixpoint rstrip (s : string) : string :=
  match s with
  | EmptyString => EmptyString
  | String c r =>
      match rstrip r with
      | EmptyString => if isspace c then EmptyString else String c EmptyString
      | r' => String c r'
      end
  end.

(** [s.strip()], on ASCII text. *)
Definition strip (s : string) : string := lstrip (rstrip s).

(** [s.split()], on ASCII text: maximal runs of non-space characters.
    [cur] holds the run being read, reversed. *)
Fixpoint split_aux (cur : list ascii) (s : string) : list string :=
  let flush := match cur with
               | [] => []
               | _ => [string_of_list_ascii (rev cur)]
               end in
  match s with
  | EmptyString => flush
  | String c r =>
      if isspace c then flush ++ split_aux [] r else split_aux (c :: cur) r
  end.

Definition split (s : string) : list string := split_aux [] s.

(** Truth value of a [str]. *)
Definition str_truthy (s : string) : bool :=
  match s with EmptyString => false | _ => true end.

End Py.

(** ** Effects shared by the two scripts *)

(** Python exceptions the scripts can meet.  [BaseException]s that are not
    [Exception]s (interrupts) are not modelled. *)
Inductive exn :=
  | AttributeError (attr : string)
  | TypeError
  | OSError
  | ValueError (text : string)
  | OverflowError
  | ParseError (text : string)
  | PlainException (text : string).

Inductive result (A : Type) :=
  | Ok (a : A)
  | Raise (e : exn).
Arguments Ok {A} a.
Arguments Raise {A} e.

(** The file system, as far as the scripts use it: regular text files by
    path.  [os.path.exists] is [is_Some (fs !! path)]. *)
Abbreviation filesystem := (gmap string string).

Definition exists_path (fs : filesystem) (path : string) : bool :=
  bool_decide (is_Some (fs !! path)).

(** A computation that emits records of type [E] (log records, printed
    lines) and either returns or raises. *)
Definition M (E A : Type) : Type := list E * result A.

Global Instance M_ret {E} : MRet (M E) := fun A a => ([], Ok a).

Definition bind {E A B} (f : A -> M E B) (m : M E A) : M E B :=
  match m with
  | (l, Ok a) => let '(l', r) := f a in (l ++ l', r)
  | (l, Raise e) => (l, Raise e)
  end.

Global Instance M_bind {E} : MBind (M E) := fun A B => bind.

Definition emit {E} (e : E) : M E unit := ([e], Ok tt).

Definition raise {E A} (e : exn) : M E A := ([], Raise e).

(** A call that emits nothing: it returns its value or raises. *)
Definition call {E A} (r : result A) : M E A := ([], r).

(** [try: m  except Exception as e: h e] *)
Definition try_except {E A} (m : M E A) (h : exn -> M E A) : M E A :=
  match m with
  | (l, Ok a) => (l, Ok a)
  | (l, Raise e) => let '(l', r) := h e in (l ++ l', r)
  end.

(** [for x in l: s = body x s] *)
Fixpoint for_each {E A S} (body : A -> S -> M E S) (l : list A) (s : S) : M E S :=
  match l with
  | [] => mret s
  | x :: xs => s' ← body x s; for_each body xs s'
  end.

Definition emitted {E A} (m : M E A) : list E := fst m.
Definition outcome {E A} (m : M E A) : result A := snd m.

(** ** kern-convertor.py *)

Module KernConvertor.

(** *** Logging *)

Inductive level := DEBUG | INFO | WARNING | ERROR.

(** One constructor per [logging] call of the script, with the values its
    format string interpolates. *)
Inductive message :=
  | FontReadFailed (font_path : string) (e : exn)
  | UnexpectedGroupStructure
  | UnexpectedGlyphClassStructure
  | NoGlyphsAttribute (glyph_class : string)
  | ExpandedNestedClass (nested_class_name : string)
  | NestedClassNotDefined (nested_class_name : string)
  | UnknownItemType (type_name : string)
  | AttemptingToConvert (fea_file_path output_plist_path : string)
  | InputFileNotFound (fea_file_path : string)
  | CheckingFontFile (font_path : string)
  | FontFileNotFound (font_path : string)
  | NoGlyphNamesFromFont
  | ProceedingWithoutGlyphSet
  | ParsingFea
  | FinishedParsing
  | ErrorParsing (e : exn)
  | IdentifiedGlyphClass (class_name : string) (members : nat)
  | ProcessingKerningLookup (lookup_name : string)
  | NoGlyphGroups (statement : string)
  | ClassNotDefined (class_name : string)
  | AddedKerningPair (g1 g2 : string) (value : Z)
  | MissingAttribute (e : exn) (statement : string)
  | GenericError (statement : string) (e : exn)
  | SkippingMarkPositioning
  | SkippingNonPairPos
  | NoKerningData
  | ConvertedTo (output_plist_path : string)
  | ErrorWriting (output_plist_path : string) (e : exn).

Record log_record := LogRecord { levelname : level; msg : message }.

Definition logging (l : level) (m : message) : M log_record unit :=
  emit (LogRecord l m).

(** *** The syntax tree, as the script inspects it *)

(** A member of a glyph class definition, by the first test of lines 71-90
    it passes. *)
Inductive class_item :=
  | ItemGlyphName (fea : string)      (* isinstance(item, GlyphName); fea = item.asFea() *)
  | ItemGlyphClass (fea : string)     (* isinstance(item, GlyphClass); fea = item.asFea() *)
  | ItemStr (s : string)              (* isinstance(item, str) *)
  | ItemNode (fea : string)           (* hasattr(item, 'asFea') *)
  | ItemUnknown (type_name : string).

(** The [glyphs] attribute of a definition, by the tests of lines 57-65. *)
Inductive glyphs_attr :=
  | GlyphClassNode (inner : option (list class_item))
      (* has a [glyphs] attribute of its own; [None] when that is not iterable *)
  | IterableNode (items : list class_item)
  | OtherNode.

Record GlyphClassDefinition := {
  name : string;
  glyphs : option glyphs_attr;         (* None: no [glyphs] attribute *)
  definition_str : result string       (* str(glyph_class), which line 67 formats *)
}.

(** An attribute that the script iterates over. *)
Inductive iter_attr (A : Type) :=
  | Missing
  | NotIterable
  | Items (l : list A).
Arguments Missing {A}.
Arguments NotIterable {A}.
Arguments Items {A} l.

(** An element [g] of an operand: [g.asFea() if hasattr(g, 'asFea') else str(g)]. *)
Record group_member := {
  member_asFea : option string;
  member_str : string
}.

Definition glyph_name_of (g : group_member) : string :=
  match member_asFea g with
  | Some fea => fea
  | None => member_str g
  end.

(** An operand of a pair positioning statement. *)
Record group := {
  truthy : bool;                          (* bool(group) *)
  is_class : option bool;                 (* hasattr(group, 'is_class'), and its truth value *)
  asFea : option string;                  (* group.asFea(), when it has the method *)
  as_list : iter_attr group_member;
  group_glyphs : iter_attr group_member;  (* group.glyphs *)
  isGlyphName : bool;                     (* isinstance(group, GlyphName) *)
  iter : option (list group_member)       (* hasattr(group, '__iter__') and not a str *)
}.

Record ValueRecord := {
  vr_truthy : bool;                       (* bool(valuerecord) *)
  xAdvance : option Z
}.

(** [None] stands for an attribute that is absent or is [None]. *)
Record PairPosStatement := {
  glyphs1 : option group;
  firstGlyphs : option group;
  glyphs2 : option group;
  secondGlyphs : option group;
  valuerecord1 : option ValueRecord;
  value1 : option ValueRecord;
  statement_str : result string           (* str(statement), which lines 176, 218, 221 format *)
}.

Inductive lookup_statement :=
  | PairPos (s : PairPosStatement)
  | MarkBasePos
  | MarkMarkPos
  | OtherLookupStatement.

Inductive statement :=
  | ClassDefinition (d : GlyphClassDefinition)
  | LookupBlock (lookup_name : string) (body : list lookup_statement)
  | OtherStatement.

Record FeatureFile := { statements : list statement }.

Abbreviation class_table := (gmap string (list string)).
Abbreviation kerning_table := (gmap string (gmap string Z)).

(** The libraries and the operating system. *)
Class Externals := {
  (* Parser(featurefile=f, glyphNames=..., followIncludes=False).parse() *)
  Parser_parse : string -> gset string -> result FeatureFile;
  (* TTFont(font_path).getGlyphOrder(), from the bytes of the font *)
  TTFont_getGlyphOrder : string -> result (list string);
  (* plistlib.dump: the document it writes for a table it can serialize *)
  plistlib_dump : kerning_table -> string;
  (* plistlib.dump writes as it goes: [Some (written, e)] when it raises [e]
     (a value out of the range of a plist integer, a name with a control
     character), having written [written] to the file *)
  dump_interrupted : kerning_table -> option (string * exn);
  (* the empty dictionary holds nothing plistlib can refuse *)
  dump_empty : dump_interrupted ∅ = None;
  (* whether open(path, 'wb') succeeds *)
  can_open_wb : string -> bool
}.

(** *** Lines 26-45 *)

Definition call_asFea (g : group) : M log_record string :=
  match asFea g with
  | Some fea => mret fea
  | None => raise (AttributeError "asFea")
  end.

Definition extract_glyph_names_from_group (g : group) : M log_record (list string) :=
  match as_list g with
  | Items l => mret (glyph_name_of <$> l)
  | NotIterable => raise TypeError
  | Missing =>
      match group_glyphs g with
      | Items l => mret (glyph_name_of <$> l)
      | NotIterable => raise TypeError
      | Missing =>
          if isGlyphName g then fea ← call_asFea g; mret [fea]
          else match iter g with
               | Some l => mret (glyph_name_of <$> l)
               | None =>
                   match asFea g with
                   | Some fea => mret [fea]
                   | None => logging WARNING UnexpectedGroupStructure;; mret []
                   end
               end
      end
  end.

(** *** Lines 47-92 *)

(** The body of the loop of line 70. *)
Definition expand_item (glyph_classes_dict : class_table) (item : class_item)
    (member_glyphs : list string) : M log_record (list string) :=
  match item with
  | ItemGlyphName fea => mret (member_glyphs ++ [fea])
  | ItemGlyphClass nested_class_name =>
      match glyph_classes_dict !! nested_class_name with
      | Some flat =>
          logging DEBUG (ExpandedNestedClass nested_class_name);;
          mret (member_glyphs ++ flat)
      | None =>
          logging WARNING (NestedClassNotDefined nested_class_name);;
          mret (member_glyphs ++ [nested_class_name])
      end
  | ItemStr s => mret (member_glyphs ++ [s])
  | ItemNode fea => mret (member_glyphs ++ [fea])
  | ItemUnknown t => logging WARNING (UnknownItemType t);; mret member_glyphs
  end.

Definition extract_glyphs_from_glyphclass (glyph_class : GlyphClassDefinition)
    (glyph_classes_dict : class_table) : M log_record (list string) :=
  match glyphs glyph_class with
  | Some (GlyphClassNode (Some items)) =>
      for_each (expand_item glyph_classes_dict) items []
  | Some (GlyphClassNode None) => raise TypeError
  | Some (IterableNode items) =>
      for_each (expand_item glyph_classes_dict) items []
  | Some OtherNode => logging WARNING UnexpectedGlyphClassStructure;; mret []
  | None =>
      rendered ← call (definition_str glyph_class);
      logging WARNING (NoGlyphsAttribute rendered);; mret []
  end.

(** *** Lines 94-241 *)

(** [a or b] on two attribute values (lines 172-173). *)
Definition py_or (a b : option group) : option group :=
  match a with
  | Some g => if truthy g then Some g else b
  | None => b
  end.

(** The advance a value record contributes to lines 180-183: it must be
    there, be true, and have an [xAdvance] that is not [None]. *)
Definition advance_of (vr : option ValueRecord) : option Z :=
  match vr with
  | Some r => if vr_truthy r then xAdvance r else None
  | None => None
  end.

(** Lines 179-183. *)
Definition statement_value (st : PairPosStatement) : Z :=
  match advance_of (valuerecord1 st) with
  | Some v => v
  | None =>
      match advance_of (value1 st) with
      | Some v => v
      | None => 0%Z
      end
  end.

(** Lines 186-195, and again 198-207 for the second operand: [None] is the
    [continue] of a class that resolves to nothing. *)
Definition resolve_operand (glyph_classes : class_table) (g : group)
    : M log_record (option (list string)) :=
  match is_class g with
  | Some true =>
      class_name ← call_asFea g;
      match default [] (glyph_classes !! class_name) with
      | [] => logging WARNING (ClassNotDefined class_name);; mret None
      | resolved => mret (Some resolved)
      end
  | _ => resolved ← extract_glyph_names_from_group g; mret (Some resolved)
  end.

(** Lines 212-214. *)
Definition set_pair (g1 g2 : string) (value : Z) (kerning_data : kerning_table)
    : kerning_table :=
  <[g1 := <[g2 := value]> (default ∅ (kerning_data !! g1))]> kerning_data.

(** Lines 210-215. *)
Definition add_pairs (first second : list string) (value : Z)
    (kerning_data : kerning_table) : M log_record kerning_table :=
  for_each (fun g1 =>
    for_each (fun g2 kd =>
      let kd' := set_pair g1 g2 value kd in
      logging DEBUG (AddedKerningPair g1 g2 value);; mret kd') second)
    first kerning_data.

(** The body of the [try] of line 170.  The warning of line 176 formats
    the statement, which can raise like any other step of the body. *)
Definition pair_pos_body (glyph_classes : class_table) (st : PairPosStatement)
    (kerning_data : kerning_table) : M log_record kerning_table :=
  match py_or (glyphs1 st) (firstGlyphs st),
        py_or (glyphs2 st) (secondGlyphs st) with
  | Some first_group, Some second_group =>
      let value := statement_value st in
      r1 ← resolve_operand glyph_classes first_group;
      match r1 with
      | None => mret kerning_data
      | Some resolved_first_glyphs =>
          r2 ← resolve_operand glyph_classes second_group;
          match r2 with
          | None => mret kerning_data
          | Some resolved_second_glyphs =>
              add_pairs resolved_first_glyphs resolved_second_glyphs value
                kerning_data
          end
      end
  | _, _ =>
      rendered ← call (statement_str st);
      logging WARNING (NoGlyphGroups rendered);; mret kerning_data
  end.

(** Lines 170-222.  Nothing in the loop of line 210 can raise, so a
    statement that raises has not touched [kerning_data].  The two
    handlers format the statement for their warning: when that raises, the
    exception is raised inside the [except] clause and leaves the loops. *)
Definition process_pair_pos (glyph_classes : class_table) (st : PairPosStatement)
    (kerning_data : kerning_table) : M log_record kerning_table :=
  try_except (pair_pos_body glyph_classes st kerning_data)
    (fun e =>
       rendered ← call (statement_str st);
       match e with
       | AttributeError _ => logging WARNING (MissingAttribute e rendered)
       | _ => logging WARNING (GenericError rendered e)
       end;;
       mret kerning_data).

(** Lines 168-227. *)
Definition process_lookup_statement (glyph_classes : class_table)
    (s : lookup_statement) (kerning_data : kerning_table)
    : M log_record kerning_table :=
  match s with
  | PairPos st => process_pair_pos glyph_classes st kerning_data
  | MarkBasePos | MarkMarkPos =>
      logging DEBUG SkippingMarkPositioning;; mret kerning_data
  | OtherLookupStatement => logging DEBUG SkippingNonPairPos;; mret kerning_data
  end.

(** Lines 155-227. *)
Definition process_statement (glyph_classes : class_table) (s : statement)
    (kerning_data : kerning_table) : M log_record kerning_table :=
  match s with
  | LookupBlock lookup_name body =>
      if Py.startswith (Py.lower lookup_name) "kern" then
        logging INFO (ProcessingKerningLookup lookup_name);;
        for_each (process_lookup_statement glyph_classes) body kerning_data
      else mret kerning_data
  | _ => mret kerning_data
  end.

(** Lines 139-147. *)
Definition define_class (s : statement) (glyph_classes : class_table)
    : M log_record class_table :=
  match s with
  | ClassDefinition d =>
      member_glyphs ← extract_glyphs_from_glyphclass d glyph_classes;
      let glyph_classes' := <[name d := member_glyphs]> glyph_classes in
      logging INFO (IdentifiedGlyphClass (name d) (length member_glyphs));;
      mret glyph_classes'
  | _ => mret glyph_classes
  end.

Definition collect_classes (ff : FeatureFile) : M log_record class_table :=
  for_each define_class (statements ff) ∅.

Definition extract_kerning (glyph_classes : class_table) (ff : FeatureFile)
    : M log_record kerning_table :=
  for_each (process_statement glyph_classes) (statements ff) ∅.

Section Convert.
Context `{Externals}.

(** Lines 13-24. *)
Definition get_all_glyph_names_from_font (fs : filesystem) (font_path : string)
    : M log_record (option (gset string)) :=
  let font := match fs !! font_path with
              | Some bytes => TTFont_getGlyphOrder bytes
              | None => Raise OSError
              end in
  match font with
  | Ok order => mret (Some (list_to_set order))
  | Raise e => logging ERROR (FontReadFailed font_path e);; mret None
  end.

(** Lines 105-118. *)
Definition glyph_names_for_parser (fs : filesystem) (font_path : option string)
    : M log_record (gset string) :=
  all_glyph_names ←
    match font_path with
    | Some p =>
        if Py.str_truthy p then
          logging INFO (CheckingFontFile p);;
          if exists_path fs p then
            names ← get_all_glyph_names_from_font fs p;
            match names with
            | None => logging WARNING NoGlyphNamesFromFont;; mret None
            | Some s => mret (Some s)
            end
          else logging WARNING (FontFileNotFound p);; mret None
        else mret None
    | None => mret None
    end;
  match all_glyph_names with
  | None => logging INFO ProceedingWithoutGlyphSet;; mret ∅
  | Some s => mret s
  end.

(** Lines 120-134: [None] when the parser raised. *)
Definition parse_fea (fs : filesystem) (fea_file_path : string)
    (all_glyph_names : gset string) : M log_record (option FeatureFile) :=
  try_except
    (logging INFO ParsingFea;;
     match fs !! fea_file_path with
     | Some text =>
         match Parser_parse text all_glyph_names with
         | Ok feature_file => logging INFO FinishedParsing;; mret (Some feature_file)
         | Raise e => raise e
         end
     | None => raise OSError
     end)
    (fun e => logging ERROR (ErrorParsing e);; mret None).

(** Lines 235-241.  Opening the file empties it; an exception of
    [plistlib.dump] reaches the handler of line 240 with the file holding
    what was written until then. *)
Definition write_plist (fs : filesystem) (output_plist_path : string)
    (kerning_data : kerning_table) : M log_record filesystem :=
  let handler fs' e :=
    logging ERROR (ErrorWriting output_plist_path e);; mret fs' in
  if can_open_wb output_plist_path then
    match dump_interrupted kerning_data with
    | None =>
        logging INFO (ConvertedTo output_plist_path);;
        mret (<[output_plist_path := plistlib_dump kerning_data]> fs)
    | Some (written, e) => handler (<[output_plist_path := written]> fs) e
    end
  else handler fs OSError.

(** The whole function: the file system it leaves behind.  A parsed
    [FeatureFile] object is always true, so the tests of lines 138 and 153
    pass. *)
Definition convert_kerning_fea_to_plist (fea_file_path output_plist_path : string)
    (font_path : option string) (fs : filesystem) : M log_record filesystem :=
  logging INFO (AttemptingToConvert fea_file_path output_plist_path);;
  if negb (exists_path fs fea_file_path) then
    logging ERROR (InputFileNotFound fea_file_path);; mret fs
  else
    all_glyph_names ← glyph_names_for_parser fs font_path;
    parsed ← parse_fea fs fea_file_path all_glyph_names;
    match parsed with
    | None => mret fs
    | Some feature_file =>
        glyph_classes ← collect_classes feature_file;
        kerning_data ← extract_kerning glyph_classes feature_file;
        (if bool_decide (kerning_data = ∅) then logging WARNING NoKerningData
         else mret tt);;
        write_plist fs output_plist_path kerning_data
    end.

End Convert.

(** The value the table holds for a pair. *)
Definition lookup_pair (kerning_data : kerning_table) (g1 g2 : string) : option Z :=
  kerning_data !! g1 ≫= fun row => row !! g2.

End KernConvertor.

(** ** kern-groups.py *)

Module KernGroups.

(** One constructor per [print] call of the script (and one for
    [traceback.print_exc]). *)
Inductive line :=
  | InputNotFound (fea_file_path : string)
  | ReadingFeaturesFrom (fea_file_path : string)
  | FoundDefinitions (count : nat)
  | ExtractedGroup (full_ufo_group_name : string) (glyph_list : list string)
  | NoDefinitionsFound
  | ParsingFailed (parser_error : exn)
  | FallingBackToRegex
  | NoGroupsExtracted
  | WroteGroups (count : nat) (output_plist_path : string)
  | ErrorOccurred (e : exn)
  | Traceback
  | ExtractedGroupRegex (full_ufo_group_name : string) (glyph_list : list string).

Definition print (l : line) : M line unit := emit l.

(** A glyph [g] of a parsed class:
    [g.name if hasattr(g, 'name') else str(g)]. *)
Record class_glyph := {
  glyph_name : option string;
  glyph_str : string
}.

(** A value of [parser.glyphClassDefs], by the tests of lines 47-50. *)
Inductive glyph_class_def :=
  | WithGlyphs (glyphs : option (list class_glyph))
      (* has a [glyphs] attribute; [None] when it is not iterable *)
  | IterableDef (members : list string)        (* list(glyph_class_def) *)
  | OpaqueDef.                                 (* list(...) raises *)

Abbreviation groups_table := (gmap string (list string)).

(** The libraries, the string methods that depend on the Unicode tables of
    the interpreter, and the operating system. *)
Class Externals := {
  (* Parser(fea_content, glyphNames=set(), followIncludes=False), then
     parse(), then the items of the glyphClassDefs attribute: [None] when
     the parser object has no such attribute *)
  Parser_glyphClassDefs :
    string -> result (option (list (string * glyph_class_def)));
  (* re.findall(class_pattern, content, re.DOTALL) *)
  re_findall : string -> list (string * string);
  (* str.upper *)
  str_upper : string -> string;
  (* str.split, without argument *)
  str_split : string -> list string;
  (* str.strip, without argument *)
  str_strip : string -> string;
  (* plistlib.dump: the document it writes for a mapping it can serialize *)
  plistlib_dump : groups_table -> string;
  (* plistlib.dump writes as it goes: [Some (written, e)] when it raises [e]
     (a name with a control character), having written [written] *)
  dump_interrupted : groups_table -> option (string * exn);
  (* whether open(path, 'wb') succeeds *)
  can_open_wb : string -> bool
}.

(** *** Lines 84-104 *)

Definition left_patterns : list string :=
  ["LEFT"; "LHS"; "L_"; "FIRST"; "1ST"; "_L"; "L."].
Definition right_patterns : list string :=
  ["RIGHT"; "RHS"; "R_"; "SECOND"; "2ND"; "_R"; "R."].

Definition kern1 : string := "public.kern1.".
Definition kern2 : string := "public.kern2.".

Section Groups.
Context `{Externals}.

Definition determine_group_type (class_name : string) : string :=
  let class_name_upper := str_upper class_name in
  if existsb (fun pattern =>
       Py.contains pattern class_name_upper || Py.startswith class_name_upper "R")
     right_patterns
  then kern2
  else if existsb (fun pattern =>
       Py.contains pattern class_name_upper || Py.startswith class_name_upper "L")
     left_patterns
  then kern1
  else kern1.

(** *** Lines 106-129 *)

(** The body of the loop of line 119. *)
Definition add_regex_group (m : string * string) (extracted_groups_data : groups_table)
    : M line groups_table :=
  let '(class_name, glyphs_str) := m in
  let glyph_list :=
    str_strip <$> List.filter (fun glyph => Py.str_truthy (str_strip glyph))
                              (str_split glyphs_str) in
  match glyph_list with
  | [] => mret extracted_groups_data
  | _ =>
      let ufo_group_name_prefix := determine_group_type class_name in
      let full_ufo_group_name := ufo_group_name_prefix +:+ class_name in
      let data' := <[full_ufo_group_name := glyph_list]> extracted_groups_data in
      print (ExtractedGroupRegex full_ufo_group_name glyph_list);;
      mret data'
  end.

Definition parse_groups_with_regex (fs : filesystem) (fea_file_path : string)
    : M line groups_table :=
  match fs !! fea_file_path with
  | Some content => for_each add_regex_group (re_findall content) ∅
  | None => raise OSError
  end.

(** *** Lines 6-82 *)

(** The body of the loop of line 42. *)
Definition add_parsed_group (item : string * glyph_class_def)
    (extracted_groups_data : groups_table) : M line groups_table :=
  let '(class_name, glyph_class_def) := item in
  let clean_name :=
    if Py.startswith class_name "@" then Py.tail class_name else class_name in
  glyph_list ←
    match glyph_class_def with
    | WithGlyphs (Some glyphs) =>
        mret ((fun g => Py.lstrip_char "\"%char
                          (default (glyph_str g) (glyph_name g))) <$> glyphs)
    | WithGlyphs None => raise TypeError
    | IterableDef members => mret members
    | OpaqueDef => raise TypeError
    end;
  let ufo_group_name_prefix := determine_group_type clean_name in
  let full_ufo_group_name := ufo_group_name_prefix +:+ clean_name in
  let data' := <[full_ufo_group_name := glyph_list]> extracted_groups_data in
  print (ExtractedGroup full_ufo_group_name glyph_list);;
  mret data'.

(** Lines 23-60: the [try] that uses the parser. *)
Definition parse_groups_with_parser (fs : filesystem) (fea_file_path : string)
    : M line groups_table :=
  match fs !! fea_file_path with
  | Some fea_content =>
      match Parser_glyphClassDefs fea_content with
      | Ok (Some (item :: items)) =>
          print (FoundDefinitions (length (item :: items)));;
          for_each add_parsed_group (item :: items) ∅
      | Ok _ =>
          print NoDefinitionsFound;;
          raise (PlainException "No glyphClassDefs found")
      | Raise e => raise e
      end
  | None => raise OSError
  end.

(** Lines 23-67: the groups the two strategies yield. *)
Definition extract_groups (fs : filesystem) (fea_file_path : string)
    : M line groups_table :=
  try_except (parse_groups_with_parser fs fea_file_path)
    (fun parser_error =>
       print (ParsingFailed parser_error);;
       print FallingBackToRegex;;
       parse_groups_with_regex fs fea_file_path).

(** The whole function: the file system it leaves behind.  Until line 74
    nothing touches the file system, so the handler of line 79 finds it as
    it was; from line 74 on it finds the output file emptied by [open] and
    holding what [plistlib.dump] wrote before it raised. *)
Definition extract_and_write_kerning_groups (fea_file_path output_plist_path : string)
    (fs : filesystem) : M line filesystem :=
  let handler fs' e := print (ErrorOccurred e);; print Traceback;; mret fs' in
  if negb (exists_path fs fea_file_path) then
    print (InputNotFound fea_file_path);; mret fs
  else
    print (ReadingFeaturesFrom fea_file_path);;
    try_except
      (extracted_groups_data ← extract_groups fs fea_file_path;
       if bool_decide (extracted_groups_data = ∅) then
         print NoGroupsExtracted;; mret fs
       else if can_open_wb output_plist_path then
         match dump_interrupted extracted_groups_data with
         | None =>
             print (WroteGroups (size extracted_groups_data) output_plist_path);;
             mret (<[output_plist_path := plistlib_dump extracted_groups_data]> fs)
         | Some (written, e) => handler (<[output_plist_path := written]> fs) e
         end
       else raise OSError)
      (handler fs).

End Groups.

End KernGroups.

(** ** Vocabulary of the properties *)

Module Sample.
Import KernConvertor.

(** What the parser builds for an inline class such as [[A B]]: a
    [GlyphClass] node, whose [glyphs] attribute lists the names as [str]. *)
Definition inline_class (fea : string) (names : list string) : group :=
  {| truthy := true; is_class := None; asFea := Some fea;
     as_list := Missing;
     group_glyphs := Items ((fun n => {| member_asFea := None; member_str := n |}) <$> names);
     isGlyphName := false; iter := None |}.

(** What the parser builds for a reference [@name] used as an operand: a
    [GlyphClassName] node.  It has no [is_class], [as_list] or [glyphs]
    attribute and cannot be iterated; [asFea()] gives the token, with the
    at sign. *)
Definition class_reference (fea : string) : group :=
  {| truthy := true; is_class := None; asFea := Some fea;
     as_list := Missing; group_glyphs := Missing;
     isGlyphName := false; iter := None |}.

(** What the parser builds for a glyph used as an operand: a [GlyphName]
    node (the name is taken not to be a keyword, so that [asFea()] is the
    name). *)
Definition glyph (n : string) : group :=
  {| truthy := true; is_class := None; asFea := Some n;
     as_list := Missing; group_glyphs := Missing;
     isGlyphName := true; iter := None |}.

(** [pos first second value;] as the parser builds it, the value on the
    first record. *)
Definition pos (first second : group) (value : Z) : PairPosStatement :=
  {| glyphs1 := Some first; firstGlyphs := None;
     glyphs2 := Some second; secondGlyphs := None;
     valuerecord1 := Some {| vr_truthy := true; xAdvance := Some value |};
     value1 := None;
     statement_str :=
       Ok ("pos " +:+ default EmptyString (asFea first) +:+ " "
             +:+ default EmptyString (asFea second) +:+ " " +:+ pretty value +:+ ";") |}.

(** [@name = [members];] as the parser builds it: the [glyphs] attribute
    is a [GlyphClass] node whose own [glyphs] lists the members as [str],
    the classes referred to between the brackets already expanded. *)
Definition class_definition (n : string) (members : list string) (fea : string)
    : GlyphClassDefinition :=
  {| name := n;
     glyphs := Some (GlyphClassNode (Some (ItemStr <$> members)));
     definition_str := Ok fea |}.

(** [lookup kern_base { pos [A B] [C D] -75; } kern_base;] *)
Definition kern_base : FeatureFile :=
  {| statements :=
       [LookupBlock "kern_base"
          [PairPos (pos (inline_class "[A B]" ["A"; "B"])
                        (inline_class "[C D]" ["C"; "D"]) (-75))]] |}.

(** [@a = [A B]; @b = [@a C]; @c = [Z @b];] *)
Definition nested_classes : FeatureFile :=
  {| statements :=
       [ClassDefinition (class_definition "a" ["A"; "B"] "@a = [A B];");
        ClassDefinition (class_definition "b" ["A"; "B"; "C"] "@b = [@a C];");
        ClassDefinition (class_definition "c" ["Z"; "A"; "B"; "C"] "@c = [Z @b];")] |}.

(** [@caps = [A B]; lookup kern_caps { pos @caps V -50; } kern_caps;] *)
Definition kern_caps : FeatureFile :=
  {| statements :=
       [ClassDefinition (class_definition "caps" ["A"; "B"] "@caps = [A B];");
        LookupBlock "kern_caps"
          [PairPos (pos (class_reference "@caps") (glyph "V") (-50))]] |}.

(** [@name = []; lookup kern_none { pos g @name value; } kern_none;] *)
Definition empty_class_kerning (class_name g : string) (value : Z) : FeatureFile :=
  {| statements :=
       [ClassDefinition
          (class_definition class_name [] ("@" +:+ class_name +:+ " = [];"));
        LookupBlock "kern_none"
          [PairPos (pos (glyph g) (class_reference ("@" +:+ class_name)) value)]] |}.

(** [@none = []; lookup kern_none { pos A @none -50; } kern_none;] *)
Definition kern_none : FeatureFile := empty_class_kerning "none" "A" (-50).

(** [lookup kern_a { pos A V -50; <a mark statement> } kern_a;], something
    that is no lookup, and
    [lookup Kern_b { pos [A B] V -80; pos B W -10; } Kern_b;] *)
Definition kern_twice : FeatureFile :=
  {| statements :=
       [LookupBlock "kern_a" [PairPos (pos (glyph "A") (glyph "V") (-50)); MarkBasePos];
        OtherStatement;
        LookupBlock "Kern_b"
          [PairPos (pos (inline_class "[A B]" ["A"; "B"]) (glyph "V") (-80));
           PairPos (pos (glyph "B") (glyph "W") (-10))]] |}.

(** A pair positioning statement that has lost its operands, and cannot
    be written out as text any more. *)
Definition broken_statement : PairPosStatement :=
  {| glyphs1 := None; firstGlyphs := None; glyphs2 := None; secondGlyphs := None;
     valuerecord1 := None; value1 := None;
     statement_str := Raise (AttributeError "asFea") |}.

End Sample.

(** Stand-ins for the libraries, to run the two scripts on examples: a
    parser that builds [kern_base] from any text, a regular-expression
    engine that finds one class definition with nothing between its
    brackets, and the ASCII string methods. *)
Module SampleLibraries.

Definition kern_convertor : KernConvertor.Externals :=
  {| KernConvertor.Parser_parse := fun _ _ => Ok Sample.kern_base;
     KernConvertor.TTFont_getGlyphOrder := fun _ => Raise OSError;
     KernConvertor.plistlib_dump := fun _ => "<plist/>";
     KernConvertor.dump_interrupted := fun _ => None;
     KernConvertor.dump_empty := eq_refl;
     KernConvertor.can_open_wb := fun _ => true |}.

(** The same, with a parser that finds no statement at all. *)
Definition kern_convertor_no_rules : KernConvertor.Externals :=
  {| KernConvertor.Parser_parse :=
       fun _ _ => Ok {| KernConvertor.statements := [] |};
     KernConvertor.TTFont_getGlyphOrder := fun _ => Raise OSError;
     KernConvertor.plistlib_dump := fun _ => "<plist/>";
     KernConvertor.dump_interrupted := fun _ => None;
     KernConvertor.dump_empty := eq_refl;
     KernConvertor.can_open_wb := fun _ => true |}.

(** The same, with a parser that rejects every text. *)
Definition kern_convertor_parse_error : KernConvertor.Externals :=
  {| KernConvertor.Parser_parse := fun _ _ => Raise (ParseError "Unknown glyph class");
     KernConvertor.TTFont_getGlyphOrder := fun _ => Raise OSError;
     KernConvertor.plistlib_dump := fun _ => "<plist/>";
     KernConvertor.dump_interrupted := fun _ => None;
     KernConvertor.dump_empty := eq_refl;
     KernConvertor.can_open_wb := fun _ => true |}.

(** The same as the first, with a serializer that gives up on every table
    that is not empty, after the opening tag. *)
Definition kern_convertor_overflow : KernConvertor.Externals :=
  {| KernConvertor.Parser_parse := fun _ _ => Ok Sample.kern_base;
     KernConvertor.TTFont_getGlyphOrder := fun _ => Raise OSError;
     KernConvertor.plistlib_dump := fun _ => "<plist/>";
     KernConvertor.dump_interrupted :=
       fun kerning_data =>
         if bool_decide (kerning_data = ∅) then None
         else Some ("<plist>", OverflowError);
     KernConvertor.dump_empty := eq_refl;
     KernConvertor.can_open_wb := fun _ => true |}.

Definition kern_groups : KernGroups.Externals :=
  {| KernGroups.Parser_glyphClassDefs := fun _ => Raise (ParseError "features.fea");
     KernGroups.re_findall := fun _ => [("empty", " ")];
     KernGroups.str_upper := Py.upper;
     KernGroups.str_split := Py.split;
     KernGroups.str_strip := Py.strip;
     KernGroups.plistlib_dump := fun _ => "<plist/>";
     KernGroups.dump_interrupted := fun _ => None;
     KernGroups.can_open_wb := fun _ => true |}.

(** A parser object that offers one class definition. *)
Definition kern_groups_parsed : KernGroups.Externals :=
  {| KernGroups.Parser_glyphClassDefs :=
       fun _ => Ok (Some [("@RightCaps", KernGroups.IterableDef ["A"; "B"])]);
     KernGroups.re_findall := fun _ => [];
     KernGroups.str_upper := Py.upper;
     KernGroups.str_split := Py.split;
     KernGroups.str_strip := Py.strip;
     KernGroups.plistlib_dump := fun _ => "<plist/>";
     KernGroups.dump_interrupted := fun _ => None;
     KernGroups.can_open_wb := fun _ => true |}.

End SampleLibraries.

Module Vocabulary.
Import KernConvertor.

(** The definition declares the members [items]. *)
Definition declares (d : GlyphClassDefinition) (items : list class_item) : Prop :=
  glyphs d = Some (GlyphClassNode (Some items)) \/
  glyphs d = Some (IterableNode items).

(** The member is the single glyph [n] (a [GlyphName] node or a [str]). *)
Definition single_glyph (item : class_item) (n : string) : Prop :=
  item = ItemGlyphName n \/ item = ItemStr n.

(** The operands lines 172-173 read off a statement. *)
Definition first_operand (st : PairPosStatement) : option group :=
  py_or (glyphs1 st) (firstGlyphs st).
Definition second_operand (st : PairPosStatement) : option group :=
  py_or (glyphs2 st) (secondGlyphs st).

(** Under the class mapping [glyph_classes] the statement reaches line 214
    with the pair [(g1, g2)] and the value [v]: both operands are there and
    resolve, [g1] is among the first glyphs and [g2] among the second. *)
Definition assigns (glyph_classes : class_table) (st : PairPosStatement)
    (g1 g2 : string) (v : Z) : Prop :=
  exists first_group second_group first second,
    first_operand st = Some first_group /\
    second_operand st = Some second_group /\
    outcome (resolve_operand glyph_classes first_group) = Ok (Some first) /\
    outcome (resolve_operand glyph_classes second_group) = Ok (Some second) /\
    g1 ∈ first /\ g2 ∈ second /\ statement_value st = v.

Definition is_warning (r : log_record) : Prop := levelname r = WARNING.
Definition is_debug (r : log_record) : Prop := levelname r = DEBUG.

(** The statement can be written out as text. *)
Definition renders (st : PairPosStatement) : Prop :=
  exists rendered, statement_str st = Ok rendered.

(** What reading the font for the parser can log (lines 23, 107-117). *)
Definition about_font (m : message) : bool :=
  match m with
  | FontReadFailed _ _ | CheckingFontFile _ | FontFileNotFound _
  | NoGlyphNamesFromFont | ProceedingWithoutGlyphSet => true
  | _ => false
  end.

(** Every value of the groups table has a member. *)
Definition no_empty_group (data : KernGroups.groups_table) : Prop :=
  forall full_ufo_group_name glyph_list,
    data !! full_ufo_group_name = Some glyph_list -> glyph_list <> [].

End Vocabulary.

(** ** kern-groups.py, the command line *)

Module KernGroupsMain.
Import KernGroups.

(** What [main] prints itself, and what the function it calls prints. *)
Inductive main_line :=
  | UsageLine
  | UsageDefaultsLine
  | Printed (l : line).

(** How [main] ends: it comes back from the conversion, or [sys.exit]
    raises [SystemExit] with a status. *)
Inductive main_outcome :=
  | Finished (r : result filesystem)
  | SystemExit (status : Z).

Section Main.
Context `{!Externals}.

(** Lines 131-145; [argv] is [sys.argv]. *)
Definition main (argv : list string) (fs : filesystem)
    : list main_line * main_outcome :=
  let convert input_fea_file output_plist_file :=
    let '(printed, r) :=
      extract_and_write_kerning_groups input_fea_file output_plist_file fs in
    (Printed <$> printed, Finished r) in
  match argv with
  | [_; input_fea_file; output_plist_file] => convert input_fea_file output_plist_file
  | [_] => convert "features.fea" "groups.plist"
  | _ => ([UsageLine; UsageDefaultsLine], SystemExit 1)
  end.

End Main.

End KernGroupsMain.

(** ** More vocabulary *)

Module Coverage.
Import KernConvertor.

(** A top-level statement line 162 selects. *)
Definition kern_lookup (s : statement) : bool :=
  match s with
  | LookupBlock lookup_name _ => Py.startswith (Py.lower lookup_name) "kern"
  | _ => false
  end.

Definition is_pair_pos (s : lookup_statement) : bool :=
  match s with
  | PairPos _ => true
  | _ => false
  end.

(** A member of a class that no test of lines 71-88 accepts. *)
Definition recognised (item : class_item) : bool :=
  match item with
  | ItemUnknown _ => false
  | _ => true
  end.

(** The names of the class definitions of a file, in order. *)
Definition defined_names (statements : list statement) : list string :=
  omap (fun s => match s with
                 | ClassDefinition d => Some (name d)
                 | _ => None
                 end) statements.

(** The rule [st] stands in a lookup of the file that line 162 selects. *)
Definition kerning_rule (ff : FeatureFile) (st : PairPosStatement) : Prop :=
  exists lookup_name body,
    LookupBlock lookup_name body ∈ statements ff /\
    Py.startswith (Py.lower lookup_name) "kern" = true /\
    PairPos st ∈ body.

(** The pair positioning statements of a lookup body, in order. *)
Definition lookup_rules (body : list lookup_statement) : list PairPosStatement :=
  omap (fun s => match s with
                 | PairPos st => Some st
                 | _ => None
                 end) body.

(** The pair positioning statements a top-level statement brings to line
    169. *)
Definition selected_rules (s : statement) : list PairPosStatement :=
  match s with
  | LookupBlock lookup_name body =>
      if Py.startswith (Py.lower lookup_name) "kern" then lookup_rules body else []
  | _ => []
  end.

(** The pair positioning statements of the selected lookups of a file, in
    the order in which line 169 meets them. *)
Fixpoint rules_of (l : list statement) : list PairPosStatement :=
  match l with
  | [] => []
  | s :: rest => selected_rules s ++ rules_of rest
  end.

Definition kerning_rules (ff : FeatureFile) : list PairPosStatement :=
  rules_of (statements ff).

(** No row of the table is empty. *)
Definition rows_inhabited (kerning_data : kerning_table) : Prop :=
  forall g1 row, kerning_data !! g1 = Some row -> row <> ∅.

(** A UFO group name with one of the two kerning prefixes. *)
Definition has_kern_prefix (group_name : string) : bool :=
  Py.startswith group_name KernGroups.kern1 || Py.startswith group_name KernGroups.kern2.

Definition all_prefixed (data : KernGroups.groups_table) : Prop :=
  forall group_name glyph_list,
    data !! group_name = Some glyph_list -> has_kern_prefix group_name = true.

End Coverage.

(** * Properties *)

(** ** The effect layer *)

Section Effects.
Context {E : Type}.

Lemma bind_Ok {A B} (l : list E) (a : A) (f : A -> M E B) :
  ((l, Ok a) ≫= f) = (l ++ emitted (f a), outcome (f a)).
Proof. unfold mbind, M_bind, bind, emitted, outcome. by destruct (f a). Qed.

Lemma bind_Raise {A B} (l : list E) (e : exn) (f : A -> M E B) :
  ((l, Raise e) ≫= f) = (l, Raise e).
Proof. reflexivity. Qed.

Lemma bind_ret_l {A B} (a : A) (f : A -> M E B) : (mret a ≫= f) = f a.
Proof. unfold mret, M_ret. rewrite bind_Ok. by destruct (f a). Qed.

Lemma bind_emit {B} (e : E) (f : unit -> M E B) :
  (emit e ≫= f) = (e :: emitted (f tt), outcome (f tt)).
Proof. unfold emit. by rewrite bind_Ok. Qed.

Lemma bind_assoc {A B C} (m : M E A) (f : A -> M E B) (g : B -> M E C) :
  ((m ≫= f) ≫= g) = (m ≫= fun a => f a ≫= g).
Proof.
  destruct m as [l [a|e]]; [|reflexivity].
  rewrite !bind_Ok. destruct (f a) as [l1 [b|e1]]; cbn [emitted outcome fst snd].
  - rewrite !bind_Ok. cbn [emitted outcome fst snd]. by rewrite (assoc_L (++)).
  - by rewrite !bind_Raise.
Qed.

Lemma bind_ext {A B} (m : M E A) (f g : A -> M E B) :
  (forall a, f a = g a) -> (m ≫= f) = (m ≫= g).
Proof.
  intros Hfg. destruct m as [l [a|e]]; [|reflexivity].
  by rewrite !bind_Ok, Hfg.
Qed.

Lemma outcome_bind {A B} (m : M E A) (f : A -> M E B) (a : A) :
  outcome m = Ok a -> outcome (m ≫= f) = outcome (f a).
Proof.
  destruct m as [l r]. intros Hr. change (r = Ok a) in Hr. subst r.
  by rewrite bind_Ok.
Qed.

Lemma outcome_bind_Raise {A B} (m : M E A) (f : A -> M E B) (e : exn) :
  outcome m = Raise e -> outcome (m ≫= f) = Raise e.
Proof.
  destruct m as [l r]. intros Hr. change (r = Raise e) in Hr. by subst r.
Qed.

(** The outcome of a sequence depends on the outcomes of its parts only,
    not on what they emit. *)
Lemma outcome_bind_congr {A B} (m1 m2 : M E A) (f g : A -> M E B) :
  outcome m1 = outcome m2 ->
  (forall a, outcome (f a) = outcome (g a)) ->
  outcome (m1 ≫= f) = outcome (m2 ≫= g).
Proof.
  destruct m1 as [l1 r1], m2 as [l2 r2]. intros Hr Hfg.
  change (r1 = r2) in Hr. subst r2.
  destruct r1 as [a|e]; [|reflexivity]. rewrite !bind_Ok. apply Hfg.
Qed.

Lemma emitted_bind {A B} (m : M E A) (f : A -> M E B) (a : A) :
  outcome m = Ok a -> emitted (m ≫= f) = emitted m ++ emitted (f a).
Proof.
  destruct m as [l r]. intros Hr. change (r = Ok a) in Hr. subst r.
  by rewrite bind_Ok.
Qed.

Lemma bind_ret_map {A B} (m : M E A) (f : A -> B) :
  (m ≫= fun a => mret (f a))
  = (emitted m, match outcome m with Ok a => Ok (f a) | Raise e => Raise e end).
Proof.
  destruct m as [l [a|e]]; [|reflexivity].
  unfold mret, M_ret. rewrite bind_Ok. cbn [emitted outcome fst snd].
  by rewrite (right_id_L [] (++)).
Qed.

Lemma bind_Ok_inv {A B} (m : M E A) (f : A -> M E B) (b : B) :
  outcome (m ≫= f) = Ok b ->
  exists a, outcome m = Ok a /\ outcome (f a) = Ok b.
Proof.
  destruct m as [l [a|e]].
  - rewrite bind_Ok. intros H. by exists a.
  - by rewrite bind_Raise.
Qed.

Lemma elem_of_emitted_bind_l {A B} (m : M E A) (f : A -> M E B) (r : E) :
  r ∈ emitted m -> r ∈ emitted (m ≫= f).
Proof.
  destruct m as [l [a|e]]; [|done].
  rewrite bind_Ok. intros H. apply elem_of_app. by left.
Qed.

(** What every part of a sequence emits, the sequence emits. *)
Lemma emitted_bind_Forall {A B} (P : E -> Prop) (m : M E A) (f : A -> M E B) :
  Forall P (emitted m) -> (forall a, Forall P (emitted (f a))) ->
  Forall P (emitted (m ≫= f)).
Proof.
  destruct m as [l [a|e]]; intros Hm Hf; [|exact Hm].
  rewrite bind_Ok. apply Forall_app. split; [exact Hm | apply Hf].
Qed.

Lemma try_except_Ok_inv {A} (m : M E A) (h : exn -> M E A) (a : A) :
  outcome (try_except m h) = Ok a ->
  outcome m = Ok a \/ exists e, outcome m = Raise e /\ outcome (h e) = Ok a.
Proof.
  destruct m as [l [a'|e]]; [by left|].
  unfold try_except. destruct (h e) as [l' r] eqn:Hh. intros Hr.
  right. exists e. split; [reflexivity|]. by rewrite Hh.
Qed.

Lemma for_each_cons {A S} (body : A -> S -> M E S) (x : A) (xs : list A) (s : S) :
  for_each body (x :: xs) s = (body x s ≫= for_each body xs).
Proof. reflexivity. Qed.

Lemma for_each_app {A S} (body : A -> S -> M E S) (l1 l2 : list A) (s : S) :
  for_each body (l1 ++ l2) s = (for_each body l1 s ≫= for_each body l2).
Proof.
  revert s. induction l1 as [|x l1 IH]; intros s; cbn [for_each app].
  - by rewrite bind_ret_l.
  - rewrite bind_assoc. apply bind_ext. intros s'. apply IH.
Qed.

(** A loop whose body always returns, returns; what the body preserves,
    the loop preserves. *)
Lemma for_each_returns {A S} (body : A -> S -> M E S) (P : S -> Prop) (l : list A) :
  (forall x s, x ∈ l -> P s -> exists s', outcome (body x s) = Ok s' /\ P s') ->
  forall s, P s -> exists s', outcome (for_each body l s) = Ok s' /\ P s'.
Proof.
  induction l as [|x l IH]; intros Hbody s Hs; cbn [for_each].
  - by exists s.
  - destruct (Hbody x s (list_elem_of_here _ _) Hs) as (s1 & H1 & HP1).
    destruct (IH (fun y t Hy => Hbody y t (list_elem_of_further _ _ _ Hy)) s1 HP1)
      as (s2 & H2 & HP2).
    exists s2. split; [|done]. by rewrite (outcome_bind _ _ _ H1).
Qed.

Lemma for_each_Ok_inv {A S} (body : A -> S -> M E S) x xs (s r : S) :
  outcome (for_each body (x :: xs) s) = Ok r ->
  exists s', outcome (body x s) = Ok s' /\ outcome (for_each body xs s') = Ok r.
Proof.
  rewrite for_each_cons. destruct (body x s) as [l [s'|e]].
  - rewrite bind_Ok. intros H. by exists s'.
  - by rewrite bind_Raise.
Qed.

Lemma for_each_app_Ok_inv {A S} (body : A -> S -> M E S) l1 l2 (s r : S) :
  outcome (for_each body (l1 ++ l2) s) = Ok r ->
  exists s', outcome (for_each body l1 s) = Ok s' /\
             outcome (for_each body l2 s') = Ok r.
Proof.
  rewrite for_each_app. destruct (for_each body l1 s) as [l [s'|e]].
  - rewrite bind_Ok. intros H. by exists s'.
  - by rewrite bind_Raise.
Qed.

(** What every step of a loop keeps, the loop keeps. *)
Lemma for_each_invariant {A S} (body : A -> S -> M E S) (P : S -> Prop) (l : list A) :
  (forall x s s', x ∈ l -> P s -> outcome (body x s) = Ok s' -> P s') ->
  forall s r, P s -> outcome (for_each body l s) = Ok r -> P r.
Proof.
  induction l as [|x l IH]; intros Hbody s r Hs Hrun.
  - injection Hrun as <-. exact Hs.
  - apply for_each_Ok_inv in Hrun as (s' & Hx & Hrest).
    apply (IH (fun y t t' Hy => Hbody y t t' (list_elem_of_further _ _ _ Hy)) s');
      [|exact Hrest].
    apply (Hbody x s s'); [apply list_elem_of_here | exact Hs | exact Hx].
Qed.

Lemma outcome_for_each_cons {A S} (body : A -> S -> M E S) x xs (s s' : S) :
  outcome (body x s) = Ok s' ->
  outcome (for_each body (x :: xs) s) = outcome (for_each body xs s').
Proof. intros H. rewrite for_each_cons. by apply outcome_bind. Qed.

(** What every step of a loop emits, the loop emits. *)
Lemma for_each_emitted_Forall {A S} (P : E -> Prop) (body : A -> S -> M E S)
    (l : list A) :
  (forall x s, Forall P (emitted (body x s))) ->
  forall s, Forall P (emitted (for_each body l s)).
Proof.
  intros Hbody. induction l as [|x l IH]; intros s; cbn [for_each].
  - constructor.
  - by apply emitted_bind_Forall.
Qed.

(** A step that raises ends the loop with its exception. *)
Lemma for_each_raises {A S} (body : A -> S -> M E S) (l1 l2 : list A) x (s s1 : S) e :
  outcome (for_each body l1 s) = Ok s1 ->
  outcome (body x s1) = Raise e ->
  outcome (for_each body (l1 ++ x :: l2) s) = Raise e.
Proof.
  intros H1 Hx. rewrite for_each_app, (outcome_bind _ _ _ H1), for_each_cons.
  by apply outcome_bind_Raise.
Qed.

End Effects.

(** Runs the effect layer on computations whose steps are known. *)
Ltac run :=
  unfold KernConvertor.logging, KernGroups.print, emit, raise, call;
  cbn [mbind M_bind bind mret M_ret try_except emitted outcome fst snd app].

(** ** The glyph-class resolver *)

Section Resolver.
Import KernConvertor Vocabulary.

Lemma extract_declares d items glyph_classes_dict :
  declares d items ->
  extract_glyphs_from_glyphclass d glyph_classes_dict
  = for_each (expand_item glyph_classes_dict) items [].
Proof. unfold extract_glyphs_from_glyphclass. by intros [-> | ->]. Qed.

Lemma expand_single_glyphs glyph_classes_dict items names :
  Forall2 single_glyph items names ->
  forall member_glyphs,
    for_each (expand_item glyph_classes_dict) items member_glyphs
    = ([], Ok (member_glyphs ++ names)).
Proof.
  induction 1 as [|item n items names Hitem _ IH]; intros acc; cbn [for_each].
  - by rewrite (right_id_L [] (++)).
  - assert (expand_item glyph_classes_dict item acc = mret (acc ++ [n])) as ->
      by (by destruct Hitem as [-> | ->]).
    rewrite bind_ret_l, IH. by rewrite <- (assoc_L (++)).
Qed.

(** Each member appends to the list read so far; what it appends does not
    depend on that list, and no member makes the loop raise. *)
Lemma expand_item_appends glyph_classes_dict item :
  exists log flat, forall member_glyphs,
    expand_item glyph_classes_dict item member_glyphs
    = (log, Ok (member_glyphs ++ flat)).
Proof.
  destruct item as [fea|cn|s|fea|t]; cbn [expand_item].
  - by exists [], [fea].
  - destruct (glyph_classes_dict !! cn) as [flat|].
    + by exists [LogRecord DEBUG (ExpandedNestedClass cn)], flat.
    + by exists [LogRecord WARNING (NestedClassNotDefined cn)], [cn].
  - by exists [], [s].
  - by exists [], [fea].
  - exists [LogRecord WARNING (UnknownItemType t)], []. intros acc.
    by rewrite (right_id_L [] (++)).
Qed.

Lemma expand_items_append glyph_classes_dict items :
  exists log flat, forall member_glyphs,
    for_each (expand_item glyph_classes_dict) items member_glyphs
    = (log, Ok (member_glyphs ++ flat)).
Proof.
  induction items as [|item items (log2 & flat2 & IH)].
  - exists [], []. intros acc. cbn. by rewrite (right_id_L [] (++)).
  - destruct (expand_item_appends glyph_classes_dict item) as (log1 & flat1 & H1).
    exists (log1 ++ log2), (flat1 ++ flat2). intros acc. cbn [for_each].
    rewrite H1, bind_Ok, IH. cbn [emitted outcome fst snd].
    by rewrite (assoc_L (++)).
Qed.

(** A definition as the parser builds it resolves to the members the
    parser listed, whatever the mapping holds: the converter looks nothing
    up for it. *)
Lemma parser_definition_resolves n members fea glyph_classes_dict :
  extract_glyphs_from_glyphclass (Sample.class_definition n members fea) glyph_classes_dict
  = ([], Ok members).
Proof.
  unfold extract_glyphs_from_glyphclass, Sample.class_definition. cbn [glyphs].
  apply (expand_single_glyphs glyph_classes_dict (ItemStr <$> members) members).
  induction members as [|m members IH]; constructor; [by right | exact IH].
Qed.

End Resolver.

Section ResolverClaims.
Import KernConvertor Vocabulary.

(** C4.  A glyph-class definition whose members are all single glyphs
    resolves to exactly the declared names, in declaration order; the
    already-resolved classes play no part, nothing is logged and nothing is
    raised. *)
Theorem direct_members_resolve_in_order
    (d : GlyphClassDefinition) (glyph_classes_dict : class_table)
    (items : list class_item) (names : list string) :
  declares d items ->
  Forall2 single_glyph items names ->
  extract_glyphs_from_glyphclass d glyph_classes_dict = ([], Ok names).
Proof.
  intros Hd Hitems. rewrite (extract_declares _ _ _ Hd).
  by rewrite (expand_single_glyphs _ _ _ Hitems).
Qed.

Lemma direct_members_resolve_in_order_witness :
  extract_glyphs_from_glyphclass
    {| name := "caps";
       glyphs := Some (GlyphClassNode (Some [ItemGlyphName "A"; ItemStr "B"; ItemGlyphName "C"]));
       definition_str := Ok "@caps = [A B C];" |}
    {[ "other" := ["x"; "y"] ]}
  = ([], Ok ["A"; "B"; "C"]).
Proof.
  apply (direct_members_resolve_in_order
           {| name := "caps";
              glyphs := Some (GlyphClassNode (Some [ItemGlyphName "A"; ItemStr "B"; ItemGlyphName "C"]));
              definition_str := Ok "@caps = [A B C];" |}
           {[ "other" := ["x"; "y"] ]}
           [ItemGlyphName "A"; ItemStr "B"; ItemGlyphName "C"] ["A"; "B"; "C"]).
  - left. reflexivity.
  - constructor; [left; reflexivity|].
    constructor; [right; reflexivity|].
    constructor; [left; reflexivity|].
    constructor.
Defined.

(** The classes of [@a = [A B]; @b = [@a C]; @c = [Z @b];], which the
    parser hands over with the references expanded, are collected as they
    come, under their names without the at sign. *)
Example nested_classes_collected :
  outcome (collect_classes Sample.nested_classes)
  = Ok {[ "a" := ["A"; "B"]; "b" := ["A"; "B"; "C"]; "c" := ["Z"; "A"; "B"; "C"] ]}.
Proof. vm_compute. reflexivity. Qed.

End ResolverClaims.

(** ** The kerning table *)

Section KerningTable.
Import KernConvertor Vocabulary.

Lemma lookup_set_pair g1 g2 v (kerning_data : kerning_table) a b :
  lookup_pair (set_pair g1 g2 v kerning_data) a b
  = if decide (a = g1 /\ b = g2) then Some v else lookup_pair kerning_data a b.
Proof.
  unfold lookup_pair, set_pair.
  destruct (decide (a = g1)) as [->|Ha].
  - rewrite lookup_insert_eq. cbn.
    destruct (decide (b = g2)) as [->|Hb].
    + rewrite lookup_insert_eq. by rewrite decide_True.
    + rewrite lookup_insert_ne; [|done].
      rewrite decide_False; [|intros [_ ?]; done].
      by destruct (kerning_data !! g1).
  - rewrite lookup_insert_ne; [|done].
    rewrite decide_False; [done|intros [? _]; done].
Qed.

(** The inner loop of line 211, for one first glyph. *)
Lemma add_row_lookup g1 v second :
  forall kerning_data : kerning_table,
  exists log kd',
    for_each (fun g2 kd =>
        logging DEBUG (AddedKerningPair g1 g2 v);; mret (set_pair g1 g2 v kd))
      second kerning_data
    = (log, Ok kd') /\
    forall a b, lookup_pair kd' a b
      = if decide (a = g1 /\ b ∈ second) then Some v else lookup_pair kerning_data a b.
Proof.
  set (body := fun g2 kd => _).
  induction second as [|g2 second IH]; intros kd.
  - exists [], kd. split; [reflexivity|]. intros a b.
    rewrite decide_False; [done|]. intros [_ Hb]. by apply not_elem_of_nil in Hb.
  - destruct (IH (set_pair g1 g2 v kd)) as (log & kd' & Hrun & Hlook).
    exists (LogRecord DEBUG (AddedKerningPair g1 g2 v) :: log), kd'.
    split.
    + cbn [for_each].
      change (body g2 kd)
        with ([LogRecord DEBUG (AddedKerningPair g1 g2 v)], Ok (set_pair g1 g2 v kd)).
      by rewrite bind_Ok, Hrun.
    + intros a b. rewrite Hlook, lookup_set_pair.
      repeat case_decide; try done; exfalso; set_solver.
Qed.

(** Lines 210-215: the loops return, and the table then holds [v] at every
    pair of the product and its old value elsewhere. *)
Lemma add_pairs_lookup first second v :
  forall kerning_data : kerning_table,
  exists log kd',
    add_pairs first second v kerning_data = (log, Ok kd') /\
    forall a b, lookup_pair kd' a b
      = if decide (a ∈ first /\ b ∈ second) then Some v else lookup_pair kerning_data a b.
Proof.
  unfold add_pairs.
  induction first as [|g1 first IH]; intros kd.
  - exists [], kd. split; [reflexivity|]. intros a b.
    rewrite decide_False; [done|]. intros [Ha _]. by apply not_elem_of_nil in Ha.
  - destruct (add_row_lookup g1 v second kd) as (log1 & kd1 & Hrun1 & Hlook1).
    destruct (IH kd1) as (log2 & kd2 & Hrun2 & Hlook2).
    exists (log1 ++ log2), kd2. split.
    + rewrite for_each_cons. cbv beta. by rewrite Hrun1, bind_Ok, Hrun2.
    + intros a b. rewrite Hlook2, Hlook1.
      repeat case_decide; try done; exfalso; set_solver.
Qed.

(** The loops of line 210 log the pairs they add, at debug level, and
    nothing else. *)
Lemma add_pairs_logs_debug first second v (kerning_data : kerning_table) :
  Forall is_debug (emitted (add_pairs first second v kerning_data)).
Proof.
  unfold add_pairs. apply for_each_emitted_Forall. intros g1 kd1.
  apply for_each_emitted_Forall. intros g2 kd2. by repeat constructor.
Qed.

End KerningTable.

(** ** Operands and statements *)

Section Statements.
Import KernConvertor Vocabulary.

Lemma extract_group_emits_warnings g :
  Forall is_warning (emitted (extract_glyph_names_from_group g)).
Proof.
  unfold extract_glyph_names_from_group, call_asFea.
  destruct (as_list g); [|constructor..].
  destruct (group_glyphs g); [|constructor..].
  destruct (isGlyphName g).
  - destruct (asFea g); [rewrite bind_ret_l|]; constructor.
  - destruct (iter g); [constructor|].
    destruct (asFea g); run; repeat constructor.
Qed.

(** All that resolving an operand through lines 26-45 can log is the
    warning of line 43. *)
Lemma extract_group_log g r :
  r ∈ emitted (extract_glyph_names_from_group g) ->
  r = LogRecord WARNING UnexpectedGroupStructure.
Proof.
  unfold extract_glyph_names_from_group, call_asFea.
  destruct (as_list g); [|by intros ?%not_elem_of_nil..].
  destruct (group_glyphs g); [|by intros ?%not_elem_of_nil..].
  destruct (isGlyphName g).
  - destruct (asFea g); [rewrite bind_ret_l|]; by intros ?%not_elem_of_nil.
  - destruct (iter g); [by intros ?%not_elem_of_nil|].
    destruct (asFea g); run; [by intros ?%not_elem_of_nil|].
    by intros ->%list_elem_of_singleton.
Qed.

(** An operand without [is_class] attribute is never the [continue] of
    lines 192 and 204, and never brings the warning of lines 191 and 203:
    the class mapping plays no part in resolving it. *)
Lemma resolve_without_is_class glyph_classes g :
  is_class g = None ->
  outcome (resolve_operand glyph_classes g) <> Ok None /\
  (forall class_name,
     LogRecord WARNING (ClassNotDefined class_name)
       ∉ emitted (resolve_operand glyph_classes g)) /\
  (forall glyph_classes' : class_table,
     resolve_operand glyph_classes' g = resolve_operand glyph_classes g).
Proof.
  intros Hclass. unfold resolve_operand. rewrite Hclass, bind_ret_map.
  cbn [outcome emitted fst snd]. split; [|split].
  - by destruct (outcome (extract_glyph_names_from_group g)).
  - intros class_name Hin. by apply extract_group_log in Hin.
  - reflexivity.
Qed.

Lemma resolve_emits_warnings glyph_classes g :
  Forall is_warning (emitted (resolve_operand glyph_classes g)).
Proof.
  pose proof (extract_group_emits_warnings g) as Hg.
  unfold resolve_operand, call_asFea.
  destruct (is_class g) as [[|]|]; try (by rewrite bind_ret_map).
  destruct (asFea g) as [class_name|]; [rewrite bind_ret_l|constructor].
  destruct (default [] (glyph_classes !! class_name)); run; repeat constructor.
Qed.

Lemma resolve_None_warns glyph_classes g log :
  resolve_operand glyph_classes g = (log, Ok None) -> log <> [].
Proof.
  unfold resolve_operand, call_asFea.
  destruct (is_class g) as [[|]|];
    try (rewrite bind_ret_map;
         by destruct (outcome (extract_glyph_names_from_group g))).
  destruct (asFea g) as [class_name|]; [rewrite bind_ret_l|done].
  destruct (default [] (glyph_classes !! class_name)); run; by intros [= <-].
Qed.

(** An operand that yields a glyph is resolved without a word in the log. *)
Lemma extract_group_silent g resolved :
  outcome (extract_glyph_names_from_group g) = Ok resolved -> resolved <> [] ->
  emitted (extract_glyph_names_from_group g) = [].
Proof.
  unfold extract_glyph_names_from_group, call_asFea.
  destruct (as_list g); [|done..].
  destruct (group_glyphs g); [|done..].
  destruct (isGlyphName g).
  - by destruct (asFea g).
  - destruct (iter g); [done|].
    destruct (asFea g); [done|]. run. by intros [= <-].
Qed.

Lemma resolve_silent glyph_classes g resolved :
  outcome (resolve_operand glyph_classes g) = Ok (Some resolved) -> resolved <> [] ->
  emitted (resolve_operand glyph_classes g) = [].
Proof.
  pose proof (extract_group_silent g resolved) as Hg.
  unfold resolve_operand, call_asFea.
  destruct (is_class g) as [[|]|];
    try (rewrite bind_ret_map; cbn [emitted outcome fst snd];
         destruct (outcome (extract_glyph_names_from_group g)); [|done];
         intros [= ->]; by apply Hg).
  destruct (asFea g) as [class_name|]; [rewrite bind_ret_l|done].
  by destruct (default [] (glyph_classes !! class_name)).
Qed.

(** What one pair positioning statement does: it raises, which takes a
    statement that cannot be written out for the warning; or it is
    skipped, with warnings only and the table as it was; or both operands
    resolve and the loops of line 210 run. *)
Lemma process_pair_pos_cases glyph_classes st (kerning_data : kerning_table) :
  (exists e, statement_str st = Raise e /\
     outcome (process_pair_pos glyph_classes st kerning_data) = Raise e) \/
  (outcome (process_pair_pos glyph_classes st kerning_data) = Ok kerning_data /\
   Forall is_warning (emitted (process_pair_pos glyph_classes st kerning_data)) /\
   emitted (process_pair_pos glyph_classes st kerning_data) <> []) \/
  (exists first_group second_group first second,
     first_operand st = Some first_group /\
     second_operand st = Some second_group /\
     outcome (resolve_operand glyph_classes first_group) = Ok (Some first) /\
     outcome (resolve_operand glyph_classes second_group) = Ok (Some second) /\
     outcome (process_pair_pos glyph_classes st kerning_data)
     = outcome (add_pairs first second (statement_value st) kerning_data)).
Proof.
  unfold process_pair_pos, pair_pos_body.
  fold (first_operand st). fold (second_operand st).
  destruct (first_operand st) as [fg|]; destruct (second_operand st) as [sg|];
    try (destruct (statement_str st) as [rendered|e]; run;
         [ right; left; repeat split; [repeat constructor | done]
         | left; by exists e ]).
  pose proof (resolve_emits_warnings glyph_classes fg) as W1.
  pose proof (resolve_emits_warnings glyph_classes sg) as W2.
  destruct (resolve_operand glyph_classes fg) as [l1 [[first|]|e1]] eqn:H1;
    change (Forall is_warning l1) in W1.
  - destruct (resolve_operand glyph_classes sg) as [l2 [[second|]|e2]] eqn:H2;
      change (Forall is_warning l2) in W2.
    + right. right. exists fg, sg, first, second. rewrite H1, H2.
      do 4 (split; [reflexivity|]).
      destruct (add_pairs_lookup first second (statement_value st) kerning_data)
        as (log & kd' & Hrun & _).
      run. by rewrite Hrun.
    + right. left. apply resolve_None_warns in H2. run.
      rewrite (right_id_L [] (++)). split; [reflexivity|]. split.
      * rewrite Forall_app. by split.
      * by destruct l1, l2.
    + destruct (statement_str st) as [rendered|e]; [right; left | left; by exists e].
      destruct e2; run; (split; [reflexivity|]; split;
        [ rewrite !Forall_app; repeat split; try assumption; repeat constructor
        | by destruct l1, l2 ]).
  - right. left. apply resolve_None_warns in H1. run.
    rewrite (right_id_L [] (++)). by repeat split.
  - destruct (statement_str st) as [rendered|e]; [right; left | left; by exists e].
    destruct e1; run; (split; [reflexivity|]; split;
      [ rewrite !Forall_app; repeat split; try assumption; repeat constructor
      | by destruct l1 ]).
Qed.

(** A statement that can be written out does not stop the loop of line
    168, and no statement of another kind does. *)
Lemma process_pair_pos_returns glyph_classes st (kerning_data : kerning_table) :
  renders st ->
  exists kd', outcome (process_pair_pos glyph_classes st kerning_data) = Ok kd'.
Proof.
  intros [rendered Hstr].
  destruct (process_pair_pos_cases glyph_classes st kerning_data)
    as [(e & He & _) | [(H & _) | (fg & sg & first & second & _ & _ & _ & _ & H)]].
  - by rewrite Hstr in He.
  - by exists kerning_data.
  - destruct (add_pairs_lookup first second (statement_value st) kerning_data)
      as (log & kd' & Hrun & _).
    exists kd'. by rewrite H, Hrun.
Qed.

(** A statement that reaches line 214 with a pair leaves that pair at its
    value, whatever the table held. *)
Lemma assigns_sets glyph_classes st (kerning_data : kerning_table) g1 g2 v :
  assigns glyph_classes st g1 g2 v ->
  exists kd',
    outcome (process_pair_pos glyph_classes st kerning_data) = Ok kd' /\
    lookup_pair kd' g1 g2 = Some v.
Proof.
  intros (fg & sg & first & second & Hf & Hs & H1 & H2 & Hg1 & Hg2 & Hv).
  unfold process_pair_pos, pair_pos_body.
  fold (first_operand st). fold (second_operand st). rewrite Hf, Hs.
  destruct (resolve_operand glyph_classes fg) as [l1 r1].
  destruct (resolve_operand glyph_classes sg) as [l2 r2].
  change (r1 = Ok (Some first)) in H1. change (r2 = Ok (Some second)) in H2.
  subst r1 r2.
  destruct (add_pairs_lookup first second (statement_value st) kerning_data)
    as (log & kd' & Hrun & Hlook).
  exists kd'. run. rewrite Hrun. split; [reflexivity|].
  rewrite Hlook, decide_True, Hv; done.
Qed.

(** Such a statement logs the pairs it adds, at debug level, and nothing
    else: no warning tells that a pair had a value before. *)
Lemma assigns_logs_debug glyph_classes st (kerning_data : kerning_table) g1 g2 v :
  assigns glyph_classes st g1 g2 v ->
  Forall is_debug (emitted (process_pair_pos glyph_classes st kerning_data)).
Proof.
  intros (fg & sg & first & second & Hf & Hs & H1 & H2 & Hg1 & Hg2 & Hv).
  assert (first <> []) as Hne1 by (intros ->; by apply not_elem_of_nil in Hg1).
  assert (second <> []) as Hne2 by (intros ->; by apply not_elem_of_nil in Hg2).
  pose proof (resolve_silent _ _ _ H1 Hne1) as S1.
  pose proof (resolve_silent _ _ _ H2 Hne2) as S2.
  pose proof (add_pairs_logs_debug first second (statement_value st) kerning_data) as D.
  unfold process_pair_pos, pair_pos_body.
  fold (first_operand st). fold (second_operand st). rewrite Hf, Hs.
  destruct (resolve_operand glyph_classes fg) as [l1 r1].
  destruct (resolve_operand glyph_classes sg) as [l2 r2].
  change (r1 = Ok (Some first)) in H1. change (r2 = Ok (Some second)) in H2.
  change (l1 = []) in S1. change (l2 = []) in S2. subst r1 r2 l1 l2.
  destruct (add_pairs_lookup first second (statement_value st) kerning_data)
    as (log & kd' & Hrun & _).
  rewrite Hrun in D. run. by rewrite Hrun.
Qed.

End Statements.

(** ** Lookups and the statements in them *)

Section Selection.
Import KernConvertor Vocabulary Coverage.

Lemma unselected_statement_skipped glyph_classes s (kerning_data : kerning_table) :
  kern_lookup s = false ->
  process_statement glyph_classes s kerning_data = mret kerning_data.
Proof.
  destruct s as [d|lookup_name body|]; try reflexivity.
  cbn [kern_lookup process_statement]. by intros ->.
Qed.

(** X1.  Under one and the same class mapping, only the lookups whose
    lower-cased name begins with kern count for the kerning table: with the
    mapping held fixed, taking every other top-level statement out of the
    file (feature blocks, class definitions, other lookups) changes neither
    the table nor the log of the extraction.  (Class definitions count
    through the mapping, which is collected before and given here.) *)
Theorem statements_outside_kern_lookups_ignored
    (glyph_classes : class_table) (ff : FeatureFile) :
  extract_kerning glyph_classes ff
  = extract_kerning glyph_classes
      {| statements := List.filter kern_lookup (statements ff) |}.
Proof.
  unfold extract_kerning. cbn [statements]. generalize (∅ : kerning_table).
  induction (statements ff) as [|s l IH]; intros kd; [reflexivity|].
  cbn [List.filter]. destruct (kern_lookup s) eqn:Hs.
  - rewrite !for_each_cons. apply bind_ext. exact IH.
  - rewrite for_each_cons, (unselected_statement_skipped _ _ _ Hs), bind_ret_l.
    apply IH.
Qed.

(** X2.  Inside a selected lookup only the pair positioning statements
    count: mark attachment and any other statement leave the table as it
    is, so the table a body yields is the table its pair positioning
    statements yield. *)
Theorem only_pair_statements_change_table
    (glyph_classes : class_table) (body : list lookup_statement)
    (kerning_data : kerning_table) :
  outcome (for_each (process_lookup_statement glyph_classes) body kerning_data)
  = outcome (for_each (process_lookup_statement glyph_classes)
               (List.filter is_pair_pos body) kerning_data).
Proof.
  revert kerning_data. induction body as [|s body IH]; intros kd; [reflexivity|].
  cbn [List.filter].
  destruct s as [st| | |]; cbn [is_pair_pos].
  - rewrite !for_each_cons. by apply outcome_bind_congr.
  - rewrite (outcome_for_each_cons (process_lookup_statement glyph_classes)
               MarkBasePos body kd kd eq_refl). apply IH.
  - rewrite (outcome_for_each_cons (process_lookup_statement glyph_classes)
               MarkMarkPos body kd kd eq_refl). apply IH.
  - rewrite (outcome_for_each_cons (process_lookup_statement glyph_classes)
               OtherLookupStatement body kd kd eq_refl). apply IH.
Qed.

(** The table a lookup body yields is the table its rules yield, one
    after the other. *)
Lemma lookup_body_rules glyph_classes body (kerning_data : kerning_table) :
  outcome (for_each (process_lookup_statement glyph_classes) body kerning_data)
  = outcome (for_each (process_pair_pos glyph_classes) (lookup_rules body) kerning_data).
Proof.
  revert kerning_data. induction body as [|s body IH]; intros kd; [reflexivity|].
  destruct s as [st| | |]; cbn [lookup_rules omap].
  - rewrite !for_each_cons. cbn [process_lookup_statement].
    by apply outcome_bind_congr.
  - rewrite (outcome_for_each_cons (process_lookup_statement glyph_classes)
               MarkBasePos body kd kd eq_refl). apply IH.
  - rewrite (outcome_for_each_cons (process_lookup_statement glyph_classes)
               MarkMarkPos body kd kd eq_refl). apply IH.
  - rewrite (outcome_for_each_cons (process_lookup_statement glyph_classes)
               OtherLookupStatement body kd kd eq_refl). apply IH.
Qed.

Lemma statement_rules glyph_classes s (kerning_data : kerning_table) :
  outcome (process_statement glyph_classes s kerning_data)
  = outcome (for_each (process_pair_pos glyph_classes) (selected_rules s) kerning_data).
Proof.
  destruct s as [d|lookup_name body|]; try reflexivity.
  cbn [process_statement selected_rules].
  destruct (Py.startswith (Py.lower lookup_name) "kern"); [|reflexivity].
  unfold logging. rewrite bind_emit. apply lookup_body_rules.
Qed.

Lemma statements_rules glyph_classes l (kerning_data : kerning_table) :
  outcome (for_each (process_statement glyph_classes) l kerning_data)
  = outcome (for_each (process_pair_pos glyph_classes) (rules_of l) kerning_data).
Proof.
  revert kerning_data. induction l as [|s l IH]; intros kd; [reflexivity|].
  cbn [rules_of]. rewrite for_each_cons, for_each_app.
  apply outcome_bind_congr; [apply statement_rules | exact IH].
Qed.

(** The table of a file is the table its rules yield from the empty
    table, in the order of [kerning_rules]. *)
Lemma extract_kerning_rules glyph_classes ff :
  outcome (extract_kerning glyph_classes ff)
  = outcome (for_each (process_pair_pos glyph_classes) (kerning_rules ff) ∅).
Proof. apply statements_rules. Qed.

Lemma elem_of_lookup_rules st body : st ∈ lookup_rules body <-> PairPos st ∈ body.
Proof.
  unfold lookup_rules. rewrite list_elem_of_omap. split.
  - intros (s & Hin & Hs). destruct s; try done. by injection Hs as ->.
  - intros Hin. by exists (PairPos st).
Qed.

(** The rules of [kerning_rules] are the rules that stand in a selected
    lookup. *)
Lemma elem_of_kerning_rules ff st : st ∈ kerning_rules ff <-> kerning_rule ff st.
Proof.
  unfold kerning_rules, kerning_rule. induction (statements ff) as [|s l IH].
  - split; [by intros ?%not_elem_of_nil|].
    by intros (? & ? & ?%not_elem_of_nil & _).
  - cbn [rules_of]. rewrite elem_of_app, IH. split.
    + intros [Hs | (lookup_name & body & Hin & Hkern & Hst)].
      * destruct s as [d|lookup_name body|]; cbn [selected_rules] in Hs;
          try (by apply not_elem_of_nil in Hs).
        destruct (Py.startswith (Py.lower lookup_name) "kern") eqn:Hkern;
          [|by apply not_elem_of_nil in Hs].
        exists lookup_name, body. split; [apply list_elem_of_here|].
        split; [exact Hkern | by apply elem_of_lookup_rules].
      * exists lookup_name, body. split; [by apply list_elem_of_further | done].
    + intros (lookup_name & body & Hin & Hkern & Hst).
      apply elem_of_cons in Hin as [<- | Hin].
      * left. cbn [selected_rules]. rewrite Hkern. by apply elem_of_lookup_rules.
      * right. by exists lookup_name, body.
Qed.

(** X3.  The extraction of the kerning table returns a table whenever
    every rule of the selected lookups can be written out as text, as the
    warnings of lines 176, 218 and 221 need it: whatever else the
    statements and their operands look like (missing attributes, operands
    that cannot be iterated), the handlers of lines 217-222 turn the
    exception into a warning.  A rule that has no operands and cannot be
    written out ends the extraction with the exception of the warning. *)
Theorem extract_kerning_returns_when_rules_render
    (glyph_classes : class_table) (ff : FeatureFile) :
  (Forall renders (kerning_rules ff) ->
   exists kerning_data, outcome (extract_kerning glyph_classes ff) = Ok kerning_data) /\
  (forall before st after e,
     kerning_rules ff = before ++ st :: after ->
     Forall renders before ->
     first_operand st = None ->
     statement_str st = Raise e ->
     outcome (extract_kerning glyph_classes ff) = Raise e).
Proof.
  rewrite extract_kerning_rules. split.
  - intros Hall.
    destruct (for_each_returns (process_pair_pos glyph_classes) (fun _ => True)
                (kerning_rules ff)) with (s := (∅ : kerning_table)) as (kd & H & _);
      [|done|by exists kd].
    intros st kd Hin _.
    destruct (process_pair_pos_returns glyph_classes st kd) as (kd' & H);
      [|by exists kd'].
    rewrite Forall_forall in Hall. by apply Hall.
  - intros before st after e -> Hbefore Hnone Hstr.
    destruct (for_each_returns (process_pair_pos glyph_classes) (fun _ => True) before)
      with (s := (∅ : kerning_table)) as (kd & H & _); [|done|].
    { intros st' kd Hin _.
      destruct (process_pair_pos_returns glyph_classes st' kd) as (kd' & H);
        [|by exists kd'].
      rewrite Forall_forall in Hbefore. by apply Hbefore. }
    apply (for_each_raises _ _ _ _ _ kd); [exact H|].
    unfold process_pair_pos, pair_pos_body. fold (first_operand st).
    rewrite Hnone, Hstr. reflexivity.
Qed.

Lemma extract_kerning_returns_when_rules_render_witness :
  (exists kerning_data,
     outcome (extract_kerning ∅ Sample.kern_base) = Ok kerning_data) /\
  outcome (extract_kerning ∅
             {| statements := [LookupBlock "kern" [PairPos Sample.broken_statement]] |})
  = Raise (AttributeError "asFea").
Proof.
  split.
  - apply (proj1 (extract_kerning_returns_when_rules_render ∅ Sample.kern_base)).
    repeat constructor. eexists. reflexivity.
  - apply (proj2 (extract_kerning_returns_when_rules_render ∅
                    {| statements := [LookupBlock "kern" [PairPos Sample.broken_statement]] |})
             [] Sample.broken_statement [] (AttributeError "asFea")).
    + reflexivity.
    + constructor.
    + reflexivity.
    + reflexivity.
Defined.

End Selection.

(** ** What the statements do to the table *)

Section TableInvariants.
Import KernConvertor Vocabulary Coverage.

Lemma set_pair_rows g1 g2 v (kerning_data : kerning_table) :
  rows_inhabited kerning_data -> rows_inhabited (set_pair g1 g2 v kerning_data).
Proof.
  intros Hrows a row. unfold set_pair.
  intros [[_ <-] | [_ Hrow]]%lookup_insert_Some.
  - apply insert_non_empty.
  - by apply (Hrows a).
Qed.

Lemma add_pairs_rows first second v (kerning_data kd' : kerning_table) :
  rows_inhabited kerning_data ->
  outcome (add_pairs first second v kerning_data) = Ok kd' ->
  rows_inhabited kd'.
Proof.
  unfold add_pairs. apply for_each_invariant.
  intros g1 kd1 kd2 _. apply for_each_invariant.
  intros g2 kd3 kd4 _ Hrows [= <-]. by apply set_pair_rows.
Qed.

(** What one pair positioning statement does to the table: a pair keeps
    what it had, or the statement reaches line 214 with it and it now has
    the value of the statement; and no row is left empty. *)
Lemma process_pair_pos_effect glyph_classes st (kerning_data kd' : kerning_table) :
  outcome (process_pair_pos glyph_classes st kerning_data) = Ok kd' ->
  (forall a b,
     lookup_pair kd' a b = lookup_pair kerning_data a b \/
     (assigns glyph_classes st a b (statement_value st) /\
      lookup_pair kd' a b = Some (statement_value st))) /\
  (rows_inhabited kerning_data -> rows_inhabited kd').
Proof.
  intros Hrun.
  destruct (process_pair_pos_cases glyph_classes st kerning_data)
    as [(e & _ & H) | [(H & _) | (fg & sg & first & second & Hf & Hs & H1 & H2 & H)]].
  - by rewrite H in Hrun.
  - rewrite H in Hrun. injection Hrun as <-. split; [by left | done].
  - rewrite H in Hrun.
    destruct (add_pairs_lookup first second (statement_value st) kerning_data)
      as (log & kd'' & Hadd & Hlook).
    assert (kd'' = kd') as -> by (rewrite Hadd in Hrun; by injection Hrun).
    split.
    + intros a b. rewrite Hlook. case_decide as Hin; [|by left].
      right. split; [|reflexivity].
      exists fg, sg, first, second. by destruct Hin.
    + intros Hrows. by apply (add_pairs_rows first second (statement_value st) kerning_data).
Qed.

Lemma process_lookup_statement_effect glyph_classes s (kerning_data kd' : kerning_table) :
  outcome (process_lookup_statement glyph_classes s kerning_data) = Ok kd' ->
  (forall a b,
     lookup_pair kd' a b = lookup_pair kerning_data a b \/
     exists st, s = PairPos st /\ assigns glyph_classes st a b (statement_value st) /\
                lookup_pair kd' a b = Some (statement_value st)) /\
  (rows_inhabited kerning_data -> rows_inhabited kd').
Proof.
  destruct s as [st| | |]; cbn [process_lookup_statement];
    try (intros [= <-]; split; [by left | done]).
  intros Hrun. destruct (process_pair_pos_effect _ _ _ _ Hrun) as [Hpairs Hrows].
  split; [|exact Hrows].
  intros a b. destruct (Hpairs a b) as [Heq | Hset]; [by left|].
  right. by exists st.
Qed.

(** The same for a whole lookup body, from the table [kerning_data]. *)
Lemma lookup_body_effect glyph_classes body (kerning_data kd' : kerning_table) :
  outcome (for_each (process_lookup_statement glyph_classes) body kerning_data) = Ok kd' ->
  (forall a b v,
     lookup_pair kd' a b = Some v ->
     lookup_pair kerning_data a b = Some v \/
     exists st, PairPos st ∈ body /\ assigns glyph_classes st a b v) /\
  (forall a b, is_Some (lookup_pair kerning_data a b) -> is_Some (lookup_pair kd' a b)) /\
  (rows_inhabited kerning_data -> rows_inhabited kd').
Proof.
  intros Hrun.
  apply (for_each_invariant (process_lookup_statement glyph_classes)
           (fun kd =>
              (forall a b v,
                 lookup_pair kd a b = Some v ->
                 lookup_pair kerning_data a b = Some v \/
                 exists st, PairPos st ∈ body /\ assigns glyph_classes st a b v) /\
              (forall a b, is_Some (lookup_pair kerning_data a b) ->
                           is_Some (lookup_pair kd a b)) /\
              (rows_inhabited kerning_data -> rows_inhabited kd))
           body) with (s := kerning_data); [| |exact Hrun].
  - intros s kd1 kd2 Hin (Hfrom & Hkeep & Hrows) Hstep.
    destruct (process_lookup_statement_effect _ _ _ _ Hstep) as [Hpairs Hrows'].
    split; [|split].
    + intros a b v Hv. destruct (Hpairs a b) as [Heq | (st & -> & Hassigns & Hset)].
      * rewrite Heq in Hv. by apply Hfrom.
      * right. exists st. split; [exact Hin|].
        rewrite Hset in Hv. by injection Hv as <-.
    + intros a b Hsome. destruct (Hpairs a b) as [Heq | (st & _ & _ & Hset)].
      * rewrite Heq. by apply Hkeep.
      * by rewrite Hset.
    + intros H. by apply Hrows', Hrows.
  - split; [|split]; [by left| |]; done.
Qed.

Lemma process_statement_effect glyph_classes s (kerning_data kd' : kerning_table) :
  outcome (process_statement glyph_classes s kerning_data) = Ok kd' ->
  (forall a b v,
     lookup_pair kd' a b = Some v ->
     lookup_pair kerning_data a b = Some v \/
     exists lookup_name body st,
       s = LookupBlock lookup_name body /\
       Py.startswith (Py.lower lookup_name) "kern" = true /\
       PairPos st ∈ body /\ assigns glyph_classes st a b v) /\
  (forall a b, is_Some (lookup_pair kerning_data a b) -> is_Some (lookup_pair kd' a b)) /\
  (rows_inhabited kerning_data -> rows_inhabited kd').
Proof.
  destruct s as [d|lookup_name body|]; cbn [process_statement];
    try (intros [= <-]; split; [by left | done]).
  destruct (Py.startswith (Py.lower lookup_name) "kern") eqn:Hkern;
    [|intros [= <-]; split; [by left | done]].
  unfold logging. rewrite bind_emit. intros Hrun.
  destruct (lookup_body_effect _ _ _ _ Hrun) as (Hfrom & Hkeep & Hrows).
  split; [|by split].
  intros a b v Hv. destruct (Hfrom a b v Hv) as [Hold | (st & Hin & Hassigns)];
    [by left|].
  right. by exists lookup_name, body, st.
Qed.

(** Once a rule has given a pair a value, the pair keeps it through every
    rule that does not give it another. *)
Lemma rules_keep_value glyph_classes rules (kerning_data kd' : kerning_table) g1 g2 v :
  (forall st w, st ∈ rules -> assigns glyph_classes st g1 g2 w -> w = v) ->
  lookup_pair kerning_data g1 g2 = Some v ->
  outcome (for_each (process_pair_pos glyph_classes) rules kerning_data) = Ok kd' ->
  lookup_pair kd' g1 g2 = Some v.
Proof.
  intros Hrules Hv.
  apply (for_each_invariant (process_pair_pos glyph_classes)
           (fun kd => lookup_pair kd g1 g2 = Some v) rules); [|exact Hv].
  intros st kd1 kd2 Hin H1 Hstep.
  destruct (process_pair_pos_effect _ _ _ _ Hstep) as [Hpairs _].
  destruct (Hpairs g1 g2) as [Heq | [Hassigns Hset]]; [by rewrite Heq|].
  by rewrite Hset, (Hrules st _ Hin Hassigns).
Qed.

End TableInvariants.

(** ** Operands as the parser builds them *)

Section StatementFacts.
Import KernConvertor Vocabulary Sample.

(** An inline class resolves to the names it lists. *)
Lemma resolve_inline_class glyph_classes fea names :
  resolve_operand glyph_classes (inline_class fea names) = ([], Ok (Some names)).
Proof.
  unfold resolve_operand, extract_glyph_names_from_group, inline_class.
  cbn [is_class as_list group_glyphs]. rewrite bind_ret_l.
  rewrite <- list_fmap_compose.
  replace (glyph_name_of ∘ _) with (@id string) by reflexivity.
  by rewrite list_fmap_id.
Qed.

(** A glyph resolves to its name. *)
Lemma resolve_glyph glyph_classes n :
  resolve_operand glyph_classes (glyph n) = ([], Ok (Some [n])).
Proof. reflexivity. Qed.

(** A class reference has no [is_class] attribute: it goes to line 195
    (or 207) and from there to line 41, which takes the token for the name
    of a glyph.  The class mapping is not looked at. *)
Lemma resolve_class_reference glyph_classes fea :
  resolve_operand glyph_classes (class_reference fea) = ([], Ok (Some [fea])).
Proof. reflexivity. Qed.

(** A rule whose operands resolve silently runs the loops of line 210 and
    nothing else. *)
Lemma pos_resolved glyph_classes first_group second_group first second v
    (kerning_data : kerning_table) :
  truthy first_group = true -> truthy second_group = true ->
  resolve_operand glyph_classes first_group = ([], Ok (Some first)) ->
  resolve_operand glyph_classes second_group = ([], Ok (Some second)) ->
  process_pair_pos glyph_classes (pos first_group second_group v) kerning_data
  = add_pairs first second v kerning_data.
Proof.
  intros T1 T2 H1 H2. unfold process_pair_pos, pair_pos_body.
  cbn [pos glyphs1 glyphs2 firstGlyphs secondGlyphs py_or]. rewrite T1, T2.
  change (statement_value _) with v. rewrite H1, H2.
  destruct (add_pairs_lookup first second v kerning_data) as (log & kd' & Hrun & _).
  run. by rewrite Hrun.
Qed.

(** A lookup whose name begins with kern and that holds one rule between
    two inline classes yields the product of the two classes, at the value
    of the rule, and nothing else. *)
Lemma inline_rule_table glyph_classes lookup_name fea1 first fea2 second v :
  Py.startswith (Py.lower lookup_name) "kern" = true ->
  exists kerning_data,
    outcome (extract_kerning glyph_classes
               {| statements :=
                    [LookupBlock lookup_name
                       [PairPos (pos (inline_class fea1 first)
                                     (inline_class fea2 second) v)]] |})
    = Ok kerning_data /\
    forall g1 g2 w,
      lookup_pair kerning_data g1 g2 = Some w <-> g1 ∈ first /\ g2 ∈ second /\ w = v.
Proof.
  intros Hkern.
  destruct (add_pairs_lookup first second v ∅) as (log & kd & Hrun & Hlook).
  exists kd. split.
  - unfold extract_kerning.
    cbn [statements for_each process_statement process_lookup_statement].
    rewrite Hkern.
    rewrite (pos_resolved glyph_classes (inline_class fea1 first)
               (inline_class fea2 second) first second v ∅ eq_refl eq_refl
               (resolve_inline_class _ _ _) (resolve_inline_class _ _ _)).
    run. by rewrite Hrun.
  - intros g1 g2 w. rewrite Hlook. case_decide as Hin.
    + split; [intros [= <-]; by destruct Hin | by intros (_ & _ & ->)].
    + split; [by unfold lookup_pair; rewrite lookup_empty | intros (? & ? & _); tauto].
Qed.

End StatementFacts.

(** ** The extracted table *)

Section ExtractorClaims.
Import KernConvertor Vocabulary Coverage Sample.

(** C1.  For the rule [pos [A B] [C D] -75;] inside the lookup [kern_base],
    the extracted table is exactly the four pairs (A,C), (A,D), (B,C),
    (B,D), each at -75: the product of the left glyphs and the right
    glyphs at the value of the statement. *)
Theorem kern_base_rule_gives_four_pairs :
  exists glyph_classes kerning_data,
    outcome (collect_classes kern_base) = Ok glyph_classes /\
    outcome (extract_kerning glyph_classes kern_base) = Ok kerning_data /\
    kerning_data = {[ "A" := {[ "C" := (-75)%Z; "D" := (-75)%Z ]};
                      "B" := {[ "C" := (-75)%Z; "D" := (-75)%Z ]} ]} /\
    forall g1 g2 v,
      lookup_pair kerning_data g1 g2 = Some v <->
      (g1 = "A" \/ g1 = "B") /\ (g2 = "C" \/ g2 = "D") /\ v = (-75)%Z.
Proof.
  destruct (inline_rule_table ∅ "kern_base" "[A B]" ["A"; "B"] "[C D]" ["C"; "D"]
              (-75)%Z eq_refl) as (kd & Hrun & Hlook).
  change (outcome (extract_kerning ∅ kern_base) = Ok kd) in Hrun.
  exists ∅, kd. split; [reflexivity|]. split; [exact Hrun|]. split.
  - assert (outcome (extract_kerning ∅ kern_base)
            = Ok {[ "A" := {[ "C" := (-75)%Z; "D" := (-75)%Z ]};
                    "B" := {[ "C" := (-75)%Z; "D" := (-75)%Z ]} ]}) as Hval
      by (vm_compute; reflexivity).
    rewrite Hrun in Hval. by injection Hval.
  - intros g1 g2 v. rewrite Hlook. set_solver.
Qed.

(** C2.  When two rules of the selected lookups of a file give the same
    pair different values, the extracted table, the one that is written,
    holds the value of the later rule for the pair, whatever lookups the
    two rules stand in and whatever statements surround them (no rule
    after the later one giving the pair yet another value, which would
    make that rule the later one).  The value of the earlier rule was in
    the table when that rule had been processed, and is gone: a pair has
    one value in the mapping.  The later rule logs the pairs it adds, at
    debug level, and nothing tells that a value was replaced. *)
Theorem later_rule_value_is_final
    (glyph_classes : class_table) (ff : FeatureFile) (kerning_data : kerning_table)
    (before between after : list PairPosStatement) (st1 st2 : PairPosStatement)
    (g1 g2 : string) (v1 v2 : Z) :
  outcome (extract_kerning glyph_classes ff) = Ok kerning_data ->
  kerning_rules ff = before ++ st1 :: between ++ st2 :: after ->
  assigns glyph_classes st1 g1 g2 v1 ->
  assigns glyph_classes st2 g1 g2 v2 ->
  v1 <> v2 ->
  (forall st v, st ∈ after -> assigns glyph_classes st g1 g2 v -> v = v2) ->
  lookup_pair kerning_data g1 g2 = Some v2 /\
  lookup_pair kerning_data g1 g2 <> Some v1 /\
  (exists kd1,
     outcome (for_each (process_pair_pos glyph_classes) (before ++ [st1]) ∅) = Ok kd1 /\
     lookup_pair kd1 g1 g2 = Some v1) /\
  (forall kd : kerning_table,
     Forall is_debug (emitted (process_pair_pos glyph_classes st2 kd))).
Proof.
  intros Hrun Hrules H1 H2 Hne Hafter.
  rewrite extract_kerning_rules, Hrules in Hrun.
  apply for_each_app_Ok_inv in Hrun as (kd0 & Hbefore & Hrun).
  apply for_each_Ok_inv in Hrun as (kd1 & Hst1 & Hrun).
  apply for_each_app_Ok_inv in Hrun as (kd2 & Hbetween & Hrun).
  apply for_each_Ok_inv in Hrun as (kd3 & Hst2 & Hrun).
  destruct (assigns_sets glyph_classes st1 kd0 g1 g2 v1 H1) as (kd1' & Hset1 & Hlook1).
  rewrite Hst1 in Hset1. injection Hset1 as <-.
  destruct (assigns_sets glyph_classes st2 kd2 g1 g2 v2 H2) as (kd3' & Hset2 & Hlook2).
  rewrite Hst2 in Hset2. injection Hset2 as <-.
  pose proof (rules_keep_value _ _ _ _ _ _ _ Hafter Hlook2 Hrun) as Hfinal.
  split; [exact Hfinal|]. split; [|split].
  - rewrite Hfinal. intros [= ->]. by apply Hne.
  - exists kd1. split; [|exact Hlook1].
    rewrite for_each_app, (outcome_bind _ _ _ Hbefore). cbn [for_each].
    by rewrite (outcome_bind _ _ _ Hst1).
  - intros kd. by apply (assigns_logs_debug _ _ _ g1 g2 v2).
Qed.

Lemma later_rule_value_is_final_witness :
  lookup_pair ({[ "A" := {[ "V" := (-80)%Z ]};
                  "B" := {[ "V" := (-80)%Z; "W" := (-10)%Z ]} ]} : kerning_table) "A" "V"
  = Some (-80)%Z.
Proof.
  assert (outcome (extract_kerning ∅ kern_twice)
          = Ok {[ "A" := {[ "V" := (-80)%Z ]};
                  "B" := {[ "V" := (-80)%Z; "W" := (-10)%Z ]} ]}) as Hrun
    by (vm_compute; reflexivity).
  assert (kerning_rules kern_twice
          = [] ++ pos (glyph "A") (glyph "V") (-50)
               :: [] ++ pos (inline_class "[A B]" ["A"; "B"]) (glyph "V") (-80)
               :: [pos (glyph "B") (glyph "W") (-10)]) as Hrules
    by reflexivity.
  assert (assigns ∅ (pos (glyph "A") (glyph "V") (-50)) "A" "V" (-50)) as H1.
  { exists (glyph "A"), (glyph "V"), ["A"], ["V"].
    repeat split; try reflexivity; apply list_elem_of_here. }
  assert (assigns ∅ (pos (inline_class "[A B]" ["A"; "B"]) (glyph "V") (-80))
            "A" "V" (-80)) as H2.
  { exists (inline_class "[A B]" ["A"; "B"]), (glyph "V"), ["A"; "B"], ["V"].
    repeat split; try reflexivity; apply list_elem_of_here. }
  assert (forall st v, st ∈ [pos (glyph "B") (glyph "W") (-10)] ->
                       assigns ∅ st "A" "V" v -> v = (-80)%Z) as Hafter.
  { intros st v Hin (fg & sg & first & second & Hf & _ & Hfirst & _ & Hg1 & _).
    apply list_elem_of_singleton in Hin. subst st.
    injection Hf as <-. injection Hfirst as <-.
    apply list_elem_of_singleton in Hg1. discriminate. }
  exact (proj1 (later_rule_value_is_final ∅ kern_twice _ [] []
                  [pos (glyph "B") (glyph "W") (-10)]
                  (pos (glyph "A") (glyph "V") (-50))
                  (pos (inline_class "[A B]" ["A"; "B"]) (glyph "V") (-80))
                  "A" "V" (-50)%Z (-80)%Z Hrun Hrules H1 H2 ltac:(discriminate) Hafter)).
Defined.

(** A rule between a glyph and a class reference, in either order, sets
    one pair: the glyph with the token of the reference. *)
Lemma reference_then_glyph glyph_classes fea g v (kerning_data : kerning_table) :
  process_pair_pos glyph_classes (pos (class_reference fea) (glyph g) v) kerning_data
  = ([LogRecord DEBUG (AddedKerningPair fea g v)], Ok (set_pair fea g v kerning_data)).
Proof.
  by rewrite (pos_resolved glyph_classes (class_reference fea) (glyph g) [fea] [g] v
                kerning_data eq_refl eq_refl eq_refl eq_refl).
Qed.

Lemma glyph_then_reference glyph_classes fea g v (kerning_data : kerning_table) :
  process_pair_pos glyph_classes (pos (glyph g) (class_reference fea) v) kerning_data
  = ([LogRecord DEBUG (AddedKerningPair g fea v)], Ok (set_pair g fea v kerning_data)).
Proof.
  by rewrite (pos_resolved glyph_classes (glyph g) (class_reference fea) [g] [fea] v
                kerning_data eq_refl eq_refl eq_refl eq_refl).
Qed.

Lemma set_pair_empty g1 g2 v : set_pair g1 g2 v ∅ = {[ g1 := {[ g2 := v ]} ]}.
Proof. unfold set_pair. rewrite lookup_empty. cbn [default]. by rewrite !insert_empty. Qed.

(** C9.  A pair positioning statement whose operand refers to a class
    that is defined with no glyphs is not skipped.  For the file
    [@name = []; lookup kern_none { pos g @name value; } kern_none;] the
    class is collected with an empty list, and the extraction then gives
    the table with the one pair of [g] and the token [@name], at the value
    of the statement; the log holds the lookup and the pair, and no
    warning.  The operand has no [is_class] attribute, so that lines
    199-204 are passed over and line 41 takes the token for a glyph. *)
Theorem empty_class_operand_is_kerned_as_glyph (class_name g : string) (value : Z) :
  outcome (collect_classes (empty_class_kerning class_name g value))
  = Ok {[ class_name := [] ]} /\
  extract_kerning {[ class_name := [] ]} (empty_class_kerning class_name g value)
  = ([LogRecord INFO (ProcessingKerningLookup "kern_none");
      LogRecord DEBUG (AddedKerningPair g ("@" +:+ class_name) value)],
     Ok {[ g := {[ ("@" +:+ class_name) := value ]} ]}) /\
  lookup_pair {[ g := {[ ("@" +:+ class_name) := value ]} ]} g ("@" +:+ class_name)
  = Some value.
Proof.
  split; [|split].
  - unfold collect_classes, empty_class_kerning.
    cbn [statements for_each define_class].
    rewrite parser_definition_resolves. run. by rewrite insert_empty.
  - unfold extract_kerning, empty_class_kerning.
    cbn [statements for_each process_statement process_lookup_statement].
    change (Py.startswith (Py.lower "kern_none") "kern") with true. cbv iota.
    cbn [for_each process_lookup_statement]. rewrite bind_ret_l.
    rewrite glyph_then_reference. run. by rewrite set_pair_empty.
  - rewrite <- set_pair_empty, lookup_set_pair. by rewrite decide_True.
Qed.

Lemma empty_class_operand_is_kerned_as_glyph_witness :
  extract_kerning {[ "none" := [] ]} kern_none
  = ([LogRecord INFO (ProcessingKerningLookup "kern_none");
      LogRecord DEBUG (AddedKerningPair "A" "@none" (-50))],
     Ok {[ "A" := {[ "@none" := (-50)%Z ]} ]}).
Proof.
  exact (proj1 (proj2 (empty_class_operand_is_kerned_as_glyph "none" "A" (-50)))).
Defined.

(** The table of [@caps = [A B]; lookup kern_caps { pos @caps V -50; }
    kern_caps;]: the class is not expanded. *)
Example kern_caps_table :
  outcome (collect_classes kern_caps) = Ok {[ "caps" := ["A"; "B"] ]} /\
  outcome (extract_kerning {[ "caps" := ["A"; "B"] ]} kern_caps)
  = Ok {[ "@caps" := {[ "V" := (-50)%Z ]} ]}.
Proof. split; vm_compute; reflexivity. Qed.

End ExtractorClaims.

Section TableClaims.
Import KernConvertor Vocabulary Coverage Sample.

Lemma statements_keep_pairs glyph_classes l (kerning_data kd' : kerning_table) a b :
  outcome (for_each (process_statement glyph_classes) l kerning_data) = Ok kd' ->
  is_Some (lookup_pair kerning_data a b) -> is_Some (lookup_pair kd' a b).
Proof.
  intros Hrun Hsome.
  apply (for_each_invariant (process_statement glyph_classes)
           (fun kd => is_Some (lookup_pair kd a b)) l) with (s := kerning_data);
    [|exact Hsome|exact Hrun].
  intros s kd1 kd2 _ H1 Hstep.
  destruct (process_statement_effect _ _ _ _ Hstep) as (_ & Hkeep & _). by apply Hkeep.
Qed.

(** X4.  Nothing is in the extracted table without a rule behind it:
    every pair of the table, with its value, is a pair that some pair
    positioning statement of a selected lookup reaches line 214 with, at
    that value. *)
Theorem every_pair_comes_from_a_rule
    (glyph_classes : class_table) (ff : FeatureFile) (kerning_data : kerning_table)
    (g1 g2 : string) (v : Z) :
  outcome (extract_kerning glyph_classes ff) = Ok kerning_data ->
  lookup_pair kerning_data g1 g2 = Some v ->
  exists st, kerning_rule ff st /\ assigns glyph_classes st g1 g2 v.
Proof.
  intros Hrun. revert g1 g2 v.
  apply (for_each_invariant (process_statement glyph_classes)
           (fun kd => forall a b w, lookup_pair kd a b = Some w ->
              exists st, kerning_rule ff st /\ assigns glyph_classes st a b w)
           (statements ff)) with (s := (∅ : kerning_table)); [| |exact Hrun].
  - intros s kd1 kd2 Hin Hfrom Hstep a b w Hw.
    destruct (process_statement_effect _ _ _ _ Hstep) as (Hpairs & _ & _).
    destruct (Hpairs a b w Hw)
      as [Hold | (lookup_name & body & st & -> & Hkern & Hst & Hassigns)];
      [by apply Hfrom|].
    exists st. split; [|exact Hassigns]. by exists lookup_name, body.
  - intros a b w. unfold lookup_pair. by rewrite lookup_empty.
Qed.

Lemma every_pair_comes_from_a_rule_witness :
  exists st, kerning_rule kern_base st /\ assigns ∅ st "A" "D" (-75).
Proof.
  apply (every_pair_comes_from_a_rule ∅ kern_base
           {[ "A" := {[ "C" := (-75)%Z; "D" := (-75)%Z ]};
              "B" := {[ "C" := (-75)%Z; "D" := (-75)%Z ]} ]} "A" "D" (-75)%Z).
  - vm_compute. reflexivity.
  - vm_compute. reflexivity.
Defined.

(** X5.  No rule is lost: a pair that a pair positioning statement of a
    selected lookup reaches line 214 with is in the extracted table,
    whatever comes before or after the statement. *)
Theorem every_rule_pair_is_in_table
    (glyph_classes : class_table) (ff : FeatureFile) (kerning_data : kerning_table)
    (st : PairPosStatement) (g1 g2 : string) (v : Z) :
  outcome (extract_kerning glyph_classes ff) = Ok kerning_data ->
  kerning_rule ff st ->
  assigns glyph_classes st g1 g2 v ->
  is_Some (lookup_pair kerning_data g1 g2).
Proof.
  unfold extract_kerning.
  intros Hrun (lookup_name & body & Hblock & Hkern & Hst) Hassigns.
  apply list_elem_of_split in Hblock as (l1 & l2 & Hsplit). rewrite Hsplit in Hrun.
  apply for_each_app_Ok_inv in Hrun as (kd1 & _ & Hrun).
  apply for_each_Ok_inv in Hrun as (kd2 & Hblock & Hrest).
  apply (statements_keep_pairs _ _ _ _ _ _ Hrest).
  cbn [process_statement] in Hblock. rewrite Hkern in Hblock.
  unfold logging in Hblock. rewrite bind_emit in Hblock.
  change (outcome (for_each (process_lookup_statement glyph_classes) body kd1) = Ok kd2)
    in Hblock.
  apply list_elem_of_split in Hst as (b1 & b2 & Hbody). rewrite Hbody in Hblock.
  apply for_each_app_Ok_inv in Hblock as (kb1 & _ & Hblock).
  apply for_each_Ok_inv in Hblock as (kb2 & Hstep & Hafter).
  destruct (lookup_body_effect _ _ _ _ Hafter) as (_ & Hkeep & _). apply Hkeep.
  cbn [process_lookup_statement] in Hstep.
  destruct (assigns_sets glyph_classes st kb1 g1 g2 v Hassigns) as (kd' & Hset & Hlook).
  rewrite Hset in Hstep. injection Hstep as <-. by rewrite Hlook.
Qed.

Lemma every_rule_pair_is_in_table_witness :
  is_Some (lookup_pair {[ "A" := {[ "C" := (-75)%Z; "D" := (-75)%Z ]};
                          "B" := {[ "C" := (-75)%Z; "D" := (-75)%Z ]} ]} "B" "C").
Proof.
  apply (every_rule_pair_is_in_table ∅ kern_base
           {[ "A" := {[ "C" := (-75)%Z; "D" := (-75)%Z ]};
              "B" := {[ "C" := (-75)%Z; "D" := (-75)%Z ]} ]}
           (pos (inline_class "[A B]" ["A"; "B"]) (inline_class "[C D]" ["C"; "D"]) (-75))
           "B" "C" (-75)%Z).
  - vm_compute. reflexivity.
  - exists "kern_base",
      [PairPos (pos (inline_class "[A B]" ["A"; "B"])
                    (inline_class "[C D]" ["C"; "D"]) (-75))].
    split; [apply list_elem_of_here|]. split; [reflexivity|apply list_elem_of_here].
  - exists (inline_class "[A B]" ["A"; "B"]), (inline_class "[C D]" ["C"; "D"]),
      ["A"; "B"], ["C"; "D"].
    repeat split; try reflexivity.
    + apply list_elem_of_further, list_elem_of_here.
    + apply list_elem_of_here.
Defined.

(** X6.  The extracted table has no empty row, so the test of line 229
    finds it empty exactly when no pair was extracted: the warning that no
    kerning data was found is not given for a table that holds a pair, nor
    withheld for one that holds none. *)
Theorem table_empty_iff_no_pair
    (glyph_classes : class_table) (ff : FeatureFile) (kerning_data : kerning_table) :
  outcome (extract_kerning glyph_classes ff) = Ok kerning_data ->
  rows_inhabited kerning_data /\
  (kerning_data = ∅ <-> forall g1 g2, lookup_pair kerning_data g1 g2 = None).
Proof.
  intros Hrun.
  assert (rows_inhabited kerning_data) as Hrows.
  { apply (for_each_invariant (process_statement glyph_classes) rows_inhabited
             (statements ff)) with (s := (∅ : kerning_table)); [| |exact Hrun].
    - intros s kd1 kd2 _ H1 Hstep.
      destruct (process_statement_effect _ _ _ _ Hstep) as (_ & _ & Hkeep). by apply Hkeep.
    - intros g1 row Hrow. by rewrite lookup_empty in Hrow. }
  split; [exact Hrows|]. split.
  - intros -> g1 g2. unfold lookup_pair. by rewrite lookup_empty.
  - intros Hnone. apply map_empty. intros g1.
    destruct (kerning_data !! g1) as [row|] eqn:Hrow; [|reflexivity].
    exfalso. destruct (map_choose row (Hrows g1 row Hrow)) as (g2 & v & Hv).
    specialize (Hnone g1 g2). unfold lookup_pair in Hnone.
    rewrite Hrow in Hnone. cbn in Hnone. by rewrite Hv in Hnone.
Qed.

Lemma table_empty_iff_no_pair_witness :
  rows_inhabited ({[ "A" := {[ "C" := (-75)%Z; "D" := (-75)%Z ]};
                     "B" := {[ "C" := (-75)%Z; "D" := (-75)%Z ]} ]} : kerning_table).
Proof.
  apply (table_empty_iff_no_pair ∅ kern_base
           {[ "A" := {[ "C" := (-75)%Z; "D" := (-75)%Z ]};
              "B" := {[ "C" := (-75)%Z; "D" := (-75)%Z ]} ]}).
  vm_compute. reflexivity.
Defined.

End TableClaims.

Section RepeatedRule.
Import KernConvertor Vocabulary Coverage Sample.

(** X15.  A rule met a second time changes no pair: processing a pair
    positioning statement on the table it has just produced leaves every
    pair at the value it has. *)
Theorem repeated_rule_changes_no_pair
    (glyph_classes : class_table) (st : PairPosStatement)
    (kerning_data kd1 kd2 : kerning_table) :
  outcome (process_pair_pos glyph_classes st kerning_data) = Ok kd1 ->
  outcome (process_pair_pos glyph_classes st kd1) = Ok kd2 ->
  forall g1 g2, lookup_pair kd2 g1 g2 = lookup_pair kd1 g1 g2.
Proof.
  intros Hrun1 Hrun2 g1 g2.
  destruct (process_pair_pos_effect _ _ _ _ Hrun2) as [Hpairs _].
  destruct (Hpairs g1 g2) as [Heq | [Hassigns Hset]]; [exact Heq|].
  destruct (assigns_sets glyph_classes st kerning_data g1 g2 _ Hassigns)
    as (kd' & Hrun' & Hlook).
  rewrite Hrun1 in Hrun'. injection Hrun' as <-. by rewrite Hset, Hlook.
Qed.

Lemma repeated_rule_changes_no_pair_witness :
  lookup_pair ({[ "A" := {[ "V" := (-50)%Z ]} ]} : kerning_table) "A" "V"
  = lookup_pair ({[ "A" := {[ "V" := (-50)%Z ]} ]} : kerning_table) "A" "V".
Proof.
  apply (repeated_rule_changes_no_pair ∅
           (pos (inline_class "A" ["A"]) (inline_class "V" ["V"]) (-50))
           {[ "A" := {[ "V" := (-10)%Z ]} ]}
           {[ "A" := {[ "V" := (-50)%Z ]} ]} {[ "A" := {[ "V" := (-50)%Z ]} ]}).
  - vm_compute. reflexivity.
  - vm_compute. reflexivity.
Defined.

End RepeatedRule.

Section ResolverCoverage.
Import KernConvertor Vocabulary Coverage Sample.

(** X7.  Resolution is member by member: a definition whose members are
    those of two lists, one after the other, resolves to what the first
    list resolves to followed by what the second resolves to, and logs
    what they log, in that order. *)
Theorem resolution_of_concatenated_members
    (d d1 d2 : GlyphClassDefinition) (glyph_classes_dict : class_table)
    (items1 items2 : list class_item) :
  declares d (items1 ++ items2) ->
  declares d1 items1 ->
  declares d2 items2 ->
  exists flat1 flat2,
    outcome (extract_glyphs_from_glyphclass d1 glyph_classes_dict) = Ok flat1 /\
    outcome (extract_glyphs_from_glyphclass d2 glyph_classes_dict) = Ok flat2 /\
    outcome (extract_glyphs_from_glyphclass d glyph_classes_dict) = Ok (flat1 ++ flat2) /\
    emitted (extract_glyphs_from_glyphclass d glyph_classes_dict)
    = emitted (extract_glyphs_from_glyphclass d1 glyph_classes_dict)
      ++ emitted (extract_glyphs_from_glyphclass d2 glyph_classes_dict).
Proof.
  intros Hd H1 H2.
  rewrite (extract_declares _ _ _ Hd), (extract_declares _ _ _ H1),
    (extract_declares _ _ _ H2).
  destruct (expand_items_append glyph_classes_dict items1) as (l1 & f1 & Hf1).
  destruct (expand_items_append glyph_classes_dict items2) as (l2 & f2 & Hf2).
  exists f1, f2. rewrite for_each_app, !Hf1, bind_Ok, !Hf2. by repeat split.
Qed.

Lemma resolution_of_concatenated_members_witness :
  exists flat1 flat2,
    outcome (extract_glyphs_from_glyphclass
               {| name := "x"; glyphs := Some (IterableNode [ItemStr "A"]);
                  definition_str := Ok "@x = [A];" |} ∅) = Ok flat1 /\
    outcome (extract_glyphs_from_glyphclass
               {| name := "y"; glyphs := Some (IterableNode [ItemGlyphClass "@z"]);
                  definition_str := Ok "@y = [@z];" |} ∅)
    = Ok flat2 /\
    outcome (extract_glyphs_from_glyphclass
               {| name := "xy";
                  glyphs := Some (IterableNode ([ItemStr "A"] ++ [ItemGlyphClass "@z"]));
                  definition_str := Ok "@xy = [A @z];" |} ∅)
    = Ok (flat1 ++ flat2) /\
    emitted (extract_glyphs_from_glyphclass
               {| name := "xy";
                  glyphs := Some (IterableNode ([ItemStr "A"] ++ [ItemGlyphClass "@z"]));
                  definition_str := Ok "@xy = [A @z];" |} ∅)
    = emitted (extract_glyphs_from_glyphclass
                 {| name := "x"; glyphs := Some (IterableNode [ItemStr "A"]);
                  definition_str := Ok "@x = [A];" |} ∅)
      ++ emitted (extract_glyphs_from_glyphclass
                    {| name := "y"; glyphs := Some (IterableNode [ItemGlyphClass "@z"]);
                  definition_str := Ok "@y = [@z];" |} ∅).
Proof.
  exact (resolution_of_concatenated_members
           {| name := "xy";
              glyphs := Some (IterableNode ([ItemStr "A"] ++ [ItemGlyphClass "@z"]));
                  definition_str := Ok "@xy = [A @z];" |}
           {| name := "x"; glyphs := Some (IterableNode [ItemStr "A"]);
                  definition_str := Ok "@x = [A];" |}
           {| name := "y"; glyphs := Some (IterableNode [ItemGlyphClass "@z"]);
                  definition_str := Ok "@y = [@z];" |}
           ∅ [ItemStr "A"] [ItemGlyphClass "@z"]
           (or_intror eq_refl) (or_intror eq_refl) (or_intror eq_refl)).
Defined.

Lemma unrecognised_item_appends_nothing glyph_classes_dict t member_glyphs :
  outcome (expand_item glyph_classes_dict (ItemUnknown t) member_glyphs) = Ok member_glyphs.
Proof. reflexivity. Qed.

(** X8.  A member of a type the resolver does not know is passed over:
    the class resolves, without raising, to what it would resolve to if
    such members were not in the definition. *)
Theorem unknown_members_are_passed_over
    (d d' : GlyphClassDefinition) (glyph_classes_dict : class_table)
    (items : list class_item) :
  declares d items ->
  declares d' (List.filter recognised items) ->
  exists flat,
    outcome (extract_glyphs_from_glyphclass d glyph_classes_dict) = Ok flat /\
    outcome (extract_glyphs_from_glyphclass d' glyph_classes_dict) = Ok flat.
Proof.
  intros Hd Hd'.
  rewrite (extract_declares _ _ _ Hd), (extract_declares _ _ _ Hd').
  clear Hd Hd'. generalize (@nil string).
  induction items as [|item items IH]; intros acc; [by exists acc|].
  destruct (expand_item_appends glyph_classes_dict item) as (log & flat & Hitem).
  destruct item as [fea|cn|s|fea|t]; cbn [List.filter recognised];
    rewrite !for_each_cons, Hitem, !bind_Ok;
    try (destruct (IH (acc ++ flat)) as (r & H1 & H2); by exists r).
  specialize (Hitem acc).
  assert (acc ++ flat = acc) as ->
    by (pose proof (unrecognised_item_appends_nothing glyph_classes_dict t acc) as Hu;
        rewrite Hitem in Hu; by injection Hu).
  apply IH.
Qed.

Lemma unknown_members_are_passed_over_witness :
  exists flat,
    outcome (extract_glyphs_from_glyphclass
               {| name := "a";
                  glyphs := Some (IterableNode [ItemStr "A"; ItemUnknown "int"; ItemStr "B"]);
                  definition_str := Ok "@a = [A 7 B];" |}
               ∅) = Ok flat /\
    outcome (extract_glyphs_from_glyphclass
               {| name := "b"; glyphs := Some (IterableNode [ItemStr "A"; ItemStr "B"]);
                  definition_str := Ok "@b = [A B];" |}
               ∅) = Ok flat.
Proof.
  exact (unknown_members_are_passed_over
           {| name := "a";
              glyphs := Some (IterableNode [ItemStr "A"; ItemUnknown "int"; ItemStr "B"]);
                  definition_str := Ok "@a = [A 7 B];" |}
           {| name := "b"; glyphs := Some (IterableNode [ItemStr "A"; ItemStr "B"]);
                  definition_str := Ok "@b = [A B];" |}
           ∅ [ItemStr "A"; ItemUnknown "int"; ItemStr "B"]
           (or_intror eq_refl) (or_intror eq_refl)).
Defined.

Lemma define_class_dom s (glyph_classes gc' : class_table) :
  outcome (define_class s glyph_classes) = Ok gc' ->
  dom gc' = dom glyph_classes ∪ list_to_set (defined_names [s]).
Proof.
  destruct s as [d|lookup_name body|]; cbn [define_class defined_names omap];
    try (intros [= <-]; set_solver).
  destruct (extract_glyphs_from_glyphclass d glyph_classes) as [l [flat|e]];
    [|by rewrite bind_Raise].
  rewrite bind_Ok. unfold logging. rewrite bind_emit.
  intros [= <-]. rewrite dom_insert_L. set_solver.
Qed.

(** X9.  When the class definitions of a file have been collected, the
    mapping has an entry for each class the file defines, and for nothing
    else. *)
Theorem collected_classes_are_the_defined_ones
    (ff : FeatureFile) (glyph_classes : class_table) :
  outcome (collect_classes ff) = Ok glyph_classes ->
  dom glyph_classes = list_to_set (defined_names (statements ff)).
Proof.
  unfold collect_classes.
  assert (forall l (gc0 gc : class_table),
            outcome (for_each define_class l gc0) = Ok gc ->
            dom gc = dom gc0 ∪ list_to_set (defined_names l)) as Hgen.
  { induction l as [|s l IH]; intros gc0 gc Hrun.
    - injection Hrun as <-. set_solver.
    - apply for_each_Ok_inv in Hrun as (gc1 & Hs & Hrest).
      rewrite (IH _ _ Hrest), (define_class_dom _ _ _ Hs).
      unfold defined_names. cbn [omap]. destruct s; set_solver. }
  intros Hrun. rewrite (Hgen _ _ _ Hrun). set_solver.
Qed.

Lemma collected_classes_are_the_defined_ones_witness :
  dom ({[ "a" := ["A"; "B"]; "b" := ["A"; "B"; "C"];
          "c" := ["Z"; "A"; "B"; "C"] ]} : class_table)
  = list_to_set (defined_names (statements nested_classes)).
Proof.
  apply (collected_classes_are_the_defined_ones nested_classes).
  vm_compute. reflexivity.
Defined.

End ResolverCoverage.

(** ** The group-side classifier *)

Section Classifier.
Import KernGroups.
Context `{!Externals}.

Lemma right_marker_gives_kern2 class_name :
  (exists pattern, pattern ∈ right_patterns /\
     Py.contains pattern (str_upper class_name) = true) \/
  Py.startswith (str_upper class_name) "R" = true ->
  determine_group_type class_name = kern2.
Proof.
  intros Hm. unfold determine_group_type.
  assert (existsb (fun pattern =>
            Py.contains pattern (str_upper class_name)
            || Py.startswith (str_upper class_name) "R") right_patterns = true) as ->;
    [|reflexivity].
  apply existsb_exists. destruct Hm as [(pattern & Hin & Hc) | Hr].
  - exists pattern. split; [by apply list_elem_of_In|]. by rewrite Hc.
  - exists "RIGHT". split; [by left|]. rewrite Hr. apply orb_true_r.
Qed.

Lemma no_right_marker_gives_kern1 class_name :
  (forall pattern, pattern ∈ right_patterns ->
     Py.contains pattern (str_upper class_name) = false) ->
  Py.startswith (str_upper class_name) "R" = false ->
  determine_group_type class_name = kern1.
Proof.
  intros Hnone Hr. unfold determine_group_type.
  assert (existsb (fun pattern =>
            Py.contains pattern (str_upper class_name)
            || Py.startswith (str_upper class_name) "R") right_patterns = false) as ->.
  { apply not_true_is_false. intros (pattern & Hin & Hc)%existsb_exists.
    apply list_elem_of_In in Hin. by rewrite (Hnone _ Hin), Hr in Hc. }
  by destruct (existsb _ left_patterns).
Qed.

Lemma determine_group_type_cases class_name :
  determine_group_type class_name = kern1 \/ determine_group_type class_name = kern2.
Proof.
  unfold determine_group_type.
  destruct (existsb _ right_patterns); [by right|].
  destruct (existsb _ left_patterns); by left.
Qed.

(** C6, as the code has it.  With the name put in upper case by
    [str.upper]: a name that contains "RIGHT" is given [public.kern2.];
    more than that, a name is given [public.kern2.] exactly when it
    contains one of the right-side patterns or begins with R, whatever
    left-side pattern it contains as well, the right-side tests coming
    first; and it is given [public.kern1.] exactly when it contains no
    right-side pattern and does not begin with R.  The left-side patterns
    change nothing, [public.kern1.] being the default too. *)
Theorem group_side_is_kern2_iff_right_marker_or_initial (class_name : string) :
  (Py.contains "RIGHT" (str_upper class_name) = true ->
   determine_group_type class_name = kern2) /\
  (determine_group_type class_name = kern2 <->
   (exists pattern, pattern ∈ right_patterns /\
      Py.contains pattern (str_upper class_name) = true) \/
   Py.startswith (str_upper class_name) "R" = true) /\
  (determine_group_type class_name = kern1 <->
   (forall pattern, pattern ∈ right_patterns ->
      Py.contains pattern (str_upper class_name) = false) /\
   Py.startswith (str_upper class_name) "R" = false).
Proof.
  assert ((exists pattern, pattern ∈ right_patterns /\
             Py.contains pattern (str_upper class_name) = true) \/
          Py.startswith (str_upper class_name) "R" = true \/
          ((forall pattern, pattern ∈ right_patterns ->
              Py.contains pattern (str_upper class_name) = false) /\
           Py.startswith (str_upper class_name) "R" = false)) as Hcases.
  { destruct (Py.startswith (str_upper class_name) "R"); [by right; left|].
    destruct (existsb (fun pattern => Py.contains pattern (str_upper class_name))
                right_patterns) eqn:Hex.
    - left. apply existsb_exists in Hex as (pattern & Hin & Hc).
      exists pattern. split; [by apply list_elem_of_In | exact Hc].
    - right. right. split; [|reflexivity]. intros pattern Hin.
      apply not_true_is_false. intros Hc.
      assert (existsb (fun pattern => Py.contains pattern (str_upper class_name))
                right_patterns = true) as Hex'
        by (apply existsb_exists; exists pattern; split;
            [by apply list_elem_of_In | exact Hc]).
      by rewrite Hex in Hex'. }
  split; [|split].
  - intros Hm. apply right_marker_gives_kern2. left. exists "RIGHT".
    split; [apply list_elem_of_here | exact Hm].
  - split; [|apply right_marker_gives_kern2].
    intros H2. destruct Hcases as [Hp | [Hr | [Hnone Hr]]]; [by left | by right |].
    by rewrite (no_right_marker_gives_kern1 _ Hnone Hr) in H2.
  - split; [|intros [Hnone Hr]; by apply no_right_marker_gives_kern1].
    intros H1. destruct Hcases as [Hp | [Hr | Hno]]; [| |exact Hno].
    + by rewrite (right_marker_gives_kern2 _ (or_introl Hp)) in H1.
    + by rewrite (right_marker_gives_kern2 _ (or_intror Hr)) in H1.
Qed.

End Classifier.

Lemma group_side_is_kern2_iff_right_marker_or_initial_witness :
  @KernGroups.determine_group_type SampleLibraries.kern_groups "top_RIGHT" = KernGroups.kern2 /\
  @KernGroups.determine_group_type SampleLibraries.kern_groups "xRhs" = KernGroups.kern2 /\
  @KernGroups.determine_group_type SampleLibraries.kern_groups "Left_caps" = KernGroups.kern1.
Proof.
  split; [|split].
  - apply (proj1 (@group_side_is_kern2_iff_right_marker_or_initial
                    SampleLibraries.kern_groups "top_RIGHT")).
    reflexivity.
  - apply (proj1 (proj2 (@group_side_is_kern2_iff_right_marker_or_initial
                           SampleLibraries.kern_groups "xRhs"))).
    left. exists "RHS". split; [|reflexivity].
    apply list_elem_of_further, list_elem_of_here.
  - apply (proj2 (proj2 (@group_side_is_kern2_iff_right_marker_or_initial
                           SampleLibraries.kern_groups "Left_caps"))).
    split; [|reflexivity].
    intros pattern Hin.
    repeat (apply elem_of_cons in Hin as [-> | Hin]; [reflexivity|]).
    by apply not_elem_of_nil in Hin.
Defined.

(** C6, as the claim states it, fails on "Round": no pattern of either
    list occurs in "ROUND", yet the name is given [public.kern2.], not the
    default [public.kern1.], because it begins with R.  This holds with
    any [str.upper] that puts "Round" in upper case as Python does. *)
Lemma round_matches_no_pattern_but_is_kern2 :
  (forall pattern, pattern ∈ KernGroups.right_patterns ++ KernGroups.left_patterns ->
     Py.contains pattern "ROUND" = false) /\
  (forall libraries : KernGroups.Externals,
     KernGroups.str_upper "Round" = "ROUND" ->
     KernGroups.determine_group_type "Round" = KernGroups.kern2 /\
     KernGroups.determine_group_type "Round" <> KernGroups.kern1) /\
  @KernGroups.determine_group_type SampleLibraries.kern_groups "Round" = KernGroups.kern2.
Proof.
  split; [|split].
  - intros pattern Hin.
    repeat (apply elem_of_cons in Hin as [-> | Hin]; [reflexivity|]).
    by apply not_elem_of_nil in Hin.
  - intros libraries Hupper. unfold KernGroups.determine_group_type.
    rewrite Hupper. split; [reflexivity | discriminate].
  - reflexivity.
Qed.

(** ** The two scripts on the file system *)

Section FileSystem.

Lemma exists_path_None (fs : filesystem) path :
  fs !! path = None -> exists_path fs path = false.
Proof.
  intros H. unfold exists_path. apply bool_decide_eq_false.
  rewrite H. by intros [? ?].
Qed.

Lemma exists_path_Some (fs : filesystem) path content :
  fs !! path = Some content -> exists_path fs path = true.
Proof.
  intros H. unfold exists_path. apply bool_decide_eq_true. by rewrite H.
Qed.

End FileSystem.

Section MissingInput.
Context `{!KernConvertor.Externals} `{!KernGroups.Externals}.

(** C7.  When the input feature file does not exist, each converter
    reports that it was not found (an error record, a printed line),
    returns normally, and leaves the file system as it was. *)
Theorem missing_input_reported_nothing_written
    (fea_file_path output_plist_path : string) (font_path : option string)
    (fs : filesystem) :
  fs !! fea_file_path = None ->
  KernConvertor.convert_kerning_fea_to_plist fea_file_path output_plist_path font_path fs
  = ([KernConvertor.LogRecord KernConvertor.INFO
        (KernConvertor.AttemptingToConvert fea_file_path output_plist_path);
      KernConvertor.LogRecord KernConvertor.ERROR
        (KernConvertor.InputFileNotFound fea_file_path)],
     Ok fs) /\
  KernGroups.extract_and_write_kerning_groups fea_file_path output_plist_path fs
  = ([KernGroups.InputNotFound fea_file_path], Ok fs).
Proof.
  intros Hnone.
  unfold KernConvertor.convert_kerning_fea_to_plist,
    KernGroups.extract_and_write_kerning_groups.
  rewrite (exists_path_None _ _ Hnone). split; reflexivity.
Qed.

End MissingInput.

Lemma missing_input_reported_nothing_written_witness :
  outcome (@KernConvertor.convert_kerning_fea_to_plist SampleLibraries.kern_convertor
             "missing.fea" "out.plist" None {[ "other.fea" := "feature kern { } kern;" ]})
  = Ok {[ "other.fea" := "feature kern { } kern;" ]} /\
  outcome (@KernGroups.extract_and_write_kerning_groups SampleLibraries.kern_groups
             "missing.fea" "out.plist" {[ "other.fea" := "feature kern { } kern;" ]})
  = Ok {[ "other.fea" := "feature kern { } kern;" ]}.
Proof.
  assert ((({[ "other.fea" := "feature kern { } kern;" ]} : filesystem) !! "missing.fea")
          = None) as Hnone by (vm_compute; reflexivity).
  destruct (@missing_input_reported_nothing_written
              SampleLibraries.kern_convertor SampleLibraries.kern_groups
              "missing.fea" "out.plist" None
              {[ "other.fea" := "feature kern { } kern;" ]} Hnone) as [-> ->].
  split; reflexivity.
Defined.

Section EmptyTable.
Import KernConvertor.
Context `{!Externals}.

(** C8.  When the input parses and the extraction yields no pair, the
    converter logs the no-kerning-data warning and still goes on to write:
    the output path then holds the serialized empty table; if the output
    cannot be opened the error is logged and the file system is as it
    was.  It returns normally either way. *)
Theorem empty_table_still_written
    (fea_file_path output_plist_path : string) (font_path : option string)
    (fs : filesystem) (text : string) (all_glyph_names : gset string)
    (feature_file : FeatureFile) (glyph_classes : class_table) :
  fs !! fea_file_path = Some text ->
  outcome (glyph_names_for_parser fs font_path) = Ok all_glyph_names ->
  Parser_parse text all_glyph_names = Ok feature_file ->
  outcome (collect_classes feature_file) = Ok glyph_classes ->
  outcome (extract_kerning glyph_classes feature_file) = Ok ∅ ->
  LogRecord WARNING NoKerningData
    ∈ emitted (convert_kerning_fea_to_plist fea_file_path output_plist_path font_path fs) /\
  outcome (convert_kerning_fea_to_plist fea_file_path output_plist_path font_path fs)
  = Ok (if can_open_wb output_plist_path
        then <[output_plist_path := plistlib_dump ∅]> fs
        else fs) /\
  (can_open_wb output_plist_path = false ->
   LogRecord ERROR (ErrorWriting output_plist_path OSError)
     ∈ emitted (convert_kerning_fea_to_plist fea_file_path output_plist_path font_path fs)).
Proof.
  intros Hfile Hnames Hparse Hclasses Hkerning.
  unfold convert_kerning_fea_to_plist.
  rewrite (exists_path_Some _ _ _ Hfile). cbn [negb].
  destruct (glyph_names_for_parser fs font_path) as [l0 r0].
  change (r0 = Ok all_glyph_names) in Hnames. subst r0.
  unfold parse_fea. rewrite Hfile.
  destruct (collect_classes feature_file) as [l1 r1] eqn:Hcollect.
  change (r1 = Ok glyph_classes) in Hclasses. subst r1.
  destruct (extract_kerning glyph_classes feature_file) as [l2 r2] eqn:Hextract.
  change (r2 = Ok ∅) in Hkerning. subst r2.
  run. rewrite Hparse. run. rewrite Hcollect. run. rewrite Hextract. run.
  rewrite (bool_decide_eq_true_2 _ (eq_refl (∅ : kerning_table))).
  unfold write_plist. rewrite dump_empty.
  destruct (can_open_wb output_plist_path); run.
  - split; [|split; [reflexivity|discriminate]].
    repeat (rewrite elem_of_cons || rewrite elem_of_app). tauto.
  - split; [|split; [reflexivity|intros _]];
      repeat (rewrite elem_of_cons || rewrite elem_of_app); tauto.
Qed.

End EmptyTable.

Lemma empty_table_still_written_witness :
  outcome (@KernConvertor.convert_kerning_fea_to_plist
             SampleLibraries.kern_convertor_no_rules
             "features.fea" "kerning.plist" None {[ "features.fea" := "# no rules" ]})
  = Ok (<["kerning.plist" := "<plist/>"]> {[ "features.fea" := "# no rules" ]}).
Proof.
  apply (@empty_table_still_written SampleLibraries.kern_convertor_no_rules
           "features.fea" "kerning.plist" None {[ "features.fea" := "# no rules" ]}
           "# no rules" ∅ {| KernConvertor.statements := [] |} ∅).
  - vm_compute. reflexivity.
  - reflexivity.
  - reflexivity.
  - reflexivity.
  - reflexivity.
Defined.

(** ** The kerning converter, from the file to the file *)

Section ConverterCoverage.
Import KernConvertor Vocabulary.
Context `{!Externals}.

Lemma write_plist_outcome (fs : filesystem) output_plist_path (kerning_data : kerning_table) :
  outcome (write_plist fs output_plist_path kerning_data)
  = Ok (if can_open_wb output_plist_path
        then match dump_interrupted kerning_data with
             | None => <[output_plist_path := plistlib_dump kerning_data]> fs
             | Some (written, _) => <[output_plist_path := written]> fs
             end
        else fs).
Proof.
  unfold write_plist. destruct (can_open_wb output_plist_path); [|reflexivity].
  by destruct (dump_interrupted kerning_data) as [[written e]|].
Qed.

(** X10.  The font is an aid, never an obstacle: reading the glyph names
    for the parser always returns, with the empty set when no font path is
    given, the path is the empty string, the file is not there or the font
    cannot be read; a set that is not empty is the glyph order of a font
    that was read. *)
Theorem glyph_names_fall_back_to_empty
    (fs : filesystem) (font_path : option string) :
  exists all_glyph_names,
    outcome (glyph_names_for_parser fs font_path) = Ok all_glyph_names /\
    (all_glyph_names = ∅ \/
     exists p bytes order,
       font_path = Some p /\ fs !! p = Some bytes /\
       TTFont_getGlyphOrder bytes = Ok order /\
       all_glyph_names = list_to_set order).
Proof.
  unfold glyph_names_for_parser.
  destruct font_path as [p|]; [|exists ∅; by split; [|left]].
  destruct (Py.str_truthy p); [|exists ∅; by split; [|left]].
  destruct (exists_path fs p); [|exists ∅; by split; [|left]].
  unfold get_all_glyph_names_from_font.
  destruct (fs !! p) as [bytes|] eqn:Hp; [|exists ∅; by split; [|left]].
  destruct (TTFont_getGlyphOrder bytes) as [order|e] eqn:Hfont;
    [|exists ∅; by split; [|left]].
  exists (list_to_set order). split; [reflexivity|].
  right. by exists p, bytes, order.
Qed.

(** Reading the font logs nothing but what is about the font. *)
Lemma glyph_names_log (fs : filesystem) font_path r :
  r ∈ emitted (glyph_names_for_parser fs font_path) -> about_font (msg r) = true.
Proof.
  unfold glyph_names_for_parser, get_all_glyph_names_from_font.
  destruct font_path as [p|]; [destruct (Py.str_truthy p);
    [destruct (exists_path fs p);
      [destruct (fs !! p) as [bytes|];
        [destruct (TTFont_getGlyphOrder bytes) as [order|e]|]|]|]|];
    run; intros Hin;
    repeat (apply elem_of_cons in Hin as [-> | Hin]; [reflexivity|]);
    by apply not_elem_of_nil in Hin.
Qed.

(** A file the parser rejects: the whole run, to the last record. *)
Lemma parse_failure_run
    (fea_file_path output_plist_path : string) (font_path : option string)
    (fs : filesystem) (text : string) (all_glyph_names : gset string) (e : exn) :
  fs !! fea_file_path = Some text ->
  outcome (glyph_names_for_parser fs font_path) = Ok all_glyph_names ->
  Parser_parse text all_glyph_names = Raise e ->
  convert_kerning_fea_to_plist fea_file_path output_plist_path font_path fs
  = (LogRecord INFO (AttemptingToConvert fea_file_path output_plist_path)
       :: emitted (glyph_names_for_parser fs font_path)
       ++ [LogRecord INFO ParsingFea; LogRecord ERROR (ErrorParsing e)],
     Ok fs).
Proof.
  intros Hfile Hnames Hparse.
  unfold convert_kerning_fea_to_plist.
  rewrite (exists_path_Some _ _ _ Hfile). cbn [negb].
  destruct (glyph_names_for_parser fs font_path) as [l0 r0].
  change (r0 = Ok all_glyph_names) in Hnames. subst r0.
  unfold parse_fea. rewrite Hfile. run. rewrite Hparse. run.
  reflexivity.
Qed.

(** X11.  When the parser raises on the feature file, the kerning
    converter logs the parse error and returns without writing anything:
    no empty table is written in that case. *)
Theorem parse_failure_writes_nothing
    (fea_file_path output_plist_path : string) (font_path : option string)
    (fs : filesystem) (text : string) (all_glyph_names : gset string) (e : exn) :
  fs !! fea_file_path = Some text ->
  outcome (glyph_names_for_parser fs font_path) = Ok all_glyph_names ->
  Parser_parse text all_glyph_names = Raise e ->
  outcome (convert_kerning_fea_to_plist fea_file_path output_plist_path font_path fs)
  = Ok fs /\
  LogRecord ERROR (ErrorParsing e)
    ∈ emitted (convert_kerning_fea_to_plist fea_file_path output_plist_path font_path fs).
Proof.
  intros Hfile Hnames Hparse.
  rewrite (parse_failure_run _ _ _ _ _ _ _ Hfile Hnames Hparse).
  split; [reflexivity|]. cbn [emitted fst].
  repeat (rewrite elem_of_cons || rewrite elem_of_app). tauto.
Qed.

(** C3.  A reference to a class that the file does not define never
    reaches lines 190-192, and is not skipped with a warning.  The parser
    rejects the file, and the converter then logs the parse error and
    returns: no statement after the reference is processed, nothing is
    written, and the log holds no warning that a class is not defined.
    Nor does a reference to a class of the file reach those lines: the
    operand the parser builds for it has no [is_class] attribute, so that
    line 195 (or 207) hands it to line 41, and the rule sets the pair of
    the token of the reference, taken for a glyph, and the other glyph, at
    the value of the rule, whatever the class mapping holds, with a debug
    record and no warning.  No operand without that attribute, whatever
    its shape, is skipped at lines 192 or 204 or brings their warning. *)
Theorem class_reference_aborts_or_is_kerned_as_glyph :
  (forall (fea_file_path output_plist_path : string) (font_path : option string)
          (fs : filesystem) (text : string) (all_glyph_names : gset string) (e : exn),
     fs !! fea_file_path = Some text ->
     outcome (glyph_names_for_parser fs font_path) = Ok all_glyph_names ->
     Parser_parse text all_glyph_names = Raise e ->
     outcome (convert_kerning_fea_to_plist fea_file_path output_plist_path font_path fs)
     = Ok fs /\
     LogRecord ERROR (ErrorParsing e)
       ∈ emitted (convert_kerning_fea_to_plist fea_file_path output_plist_path font_path fs) /\
     forall class_name,
       LogRecord WARNING (ClassNotDefined class_name)
         ∉ emitted (convert_kerning_fea_to_plist fea_file_path output_plist_path
                      font_path fs)) /\
  (forall (glyph_classes : class_table) (kerning_data : kerning_table)
          (reference g : string) (value : Z),
     process_pair_pos glyph_classes
       (Sample.pos (Sample.class_reference reference) (Sample.glyph g) value) kerning_data
     = ([LogRecord DEBUG (AddedKerningPair reference g value)],
        Ok (set_pair reference g value kerning_data)) /\
     process_pair_pos glyph_classes
       (Sample.pos (Sample.glyph g) (Sample.class_reference reference) value) kerning_data
     = ([LogRecord DEBUG (AddedKerningPair g reference value)],
        Ok (set_pair g reference value kerning_data)) /\
     lookup_pair (set_pair reference g value kerning_data) reference g = Some value /\
     lookup_pair (set_pair g reference value kerning_data) g reference = Some value) /\
  (forall (glyph_classes : class_table) (operand : group),
     is_class operand = None ->
     outcome (resolve_operand glyph_classes operand) <> Ok None /\
     forall class_name,
       LogRecord WARNING (ClassNotDefined class_name)
         ∉ emitted (resolve_operand glyph_classes operand)).
Proof.
  split; [|split].
  - intros fea_file_path output_plist_path font_path fs text all_glyph_names e
      Hfile Hnames Hparse.
    rewrite (parse_failure_run _ _ _ _ _ _ _ Hfile Hnames Hparse).
    split; [reflexivity|]. cbn [emitted fst]. split.
    + repeat (rewrite elem_of_cons || rewrite elem_of_app). tauto.
    + intros class_name Hin.
      apply elem_of_cons in Hin as [Heq | Hin]; [discriminate|].
      apply elem_of_app in Hin as [Hin | Hin].
      * by apply glyph_names_log in Hin.
      * repeat (apply elem_of_cons in Hin as [Heq | Hin]; [discriminate|]).
        by apply not_elem_of_nil in Hin.
  - intros glyph_classes kerning_data reference g value.
    rewrite reference_then_glyph, glyph_then_reference, !lookup_set_pair.
    by rewrite !decide_True.
  - intros glyph_classes operand Hclass.
    destruct (resolve_without_is_class glyph_classes operand Hclass) as (Hskip & Hlog & _).
    by split.
Qed.

(** C5.  A reference, inside a class definition, to a class that is not
    defined before it never reaches lines 80-82: no token is put in the
    list and no warning is logged.  The parser rejects the file, and the
    converter logs the parse error and returns: no class is resolved,
    nothing is written.  (For a reference to a class defined before, the
    parser lists the glyphs of that class among the members, as [str]: the
    definition resolves to the list with the glyphs in place whatever the
    mapping holds, without line 77 looking the name up.) *)
Theorem unresolved_nested_reference_aborts_conversion
    (fea_file_path output_plist_path : string) (font_path : option string)
    (fs : filesystem) (text : string) (all_glyph_names : gset string) (e : exn) :
  fs !! fea_file_path = Some text ->
  outcome (glyph_names_for_parser fs font_path) = Ok all_glyph_names ->
  Parser_parse text all_glyph_names = Raise e ->
  (convert_kerning_fea_to_plist fea_file_path output_plist_path font_path fs
   = (LogRecord INFO (AttemptingToConvert fea_file_path output_plist_path)
        :: emitted (glyph_names_for_parser fs font_path)
        ++ [LogRecord INFO ParsingFea; LogRecord ERROR (ErrorParsing e)],
      Ok fs)) /\
  (forall nested_class_name,
     LogRecord WARNING (NestedClassNotDefined nested_class_name)
       ∉ emitted (convert_kerning_fea_to_plist fea_file_path output_plist_path
                    font_path fs)) /\
  (forall class_name members fea (glyph_classes_dict : class_table),
     extract_glyphs_from_glyphclass (Sample.class_definition class_name members fea)
       glyph_classes_dict
     = ([], Ok members)).
Proof.
  intros Hfile Hnames Hparse.
  rewrite (parse_failure_run _ _ _ _ _ _ _ Hfile Hnames Hparse).
  split; [reflexivity|]. split.
  - intros nested_class_name Hin. cbn [emitted fst] in Hin.
    apply elem_of_cons in Hin as [Heq | Hin]; [discriminate|].
    apply elem_of_app in Hin as [Hin | Hin].
    + by apply glyph_names_log in Hin.
    + repeat (apply elem_of_cons in Hin as [Heq | Hin]; [discriminate|]).
      by apply not_elem_of_nil in Hin.
  - intros class_name members fea glyph_classes_dict.
    apply parser_definition_resolves.
Qed.

(** X12.  When the input parses and its classes are collected, the output
    path holds, after the conversion, the serialization of exactly the
    table extracted under those classes, if the output can be opened and
    the serializer takes the table; when the serializer gives up on the
    table part-way (a value too large for a plist integer, say), the
    output holds what it had written until then and the error is logged;
    when the output cannot be opened the error is logged and the file
    system is as it was.  The converter returns in each case. *)
Theorem converter_writes_extracted_table
    (fea_file_path output_plist_path : string) (font_path : option string)
    (fs : filesystem) (text : string) (all_glyph_names : gset string)
    (feature_file : FeatureFile) (glyph_classes : class_table)
    (kerning_data : kerning_table) :
  fs !! fea_file_path = Some text ->
  outcome (glyph_names_for_parser fs font_path) = Ok all_glyph_names ->
  Parser_parse text all_glyph_names = Ok feature_file ->
  outcome (collect_classes feature_file) = Ok glyph_classes ->
  outcome (extract_kerning glyph_classes feature_file) = Ok kerning_data ->
  outcome (convert_kerning_fea_to_plist fea_file_path output_plist_path font_path fs)
  = Ok (if can_open_wb output_plist_path
        then match dump_interrupted kerning_data with
             | None => <[output_plist_path := plistlib_dump kerning_data]> fs
             | Some (written, _) => <[output_plist_path := written]> fs
             end
        else fs) /\
  (can_open_wb output_plist_path = false ->
   LogRecord ERROR (ErrorWriting output_plist_path OSError)
     ∈ emitted (convert_kerning_fea_to_plist fea_file_path output_plist_path font_path fs)) /\
  (forall written e,
     can_open_wb output_plist_path = true ->
     dump_interrupted kerning_data = Some (written, e) ->
     LogRecord ERROR (ErrorWriting output_plist_path e)
       ∈ emitted (convert_kerning_fea_to_plist fea_file_path output_plist_path font_path fs)).
Proof.
  intros Hfile Hnames Hparse Hclasses Hkerning.
  unfold convert_kerning_fea_to_plist.
  rewrite (exists_path_Some _ _ _ Hfile). cbn [negb].
  destruct (glyph_names_for_parser fs font_path) as [l0 r0].
  change (r0 = Ok all_glyph_names) in Hnames. subst r0.
  unfold parse_fea. rewrite Hfile.
  destruct (collect_classes feature_file) as [l1 r1] eqn:Hcollect.
  change (r1 = Ok glyph_classes) in Hclasses. subst r1.
  destruct (extract_kerning glyph_classes feature_file) as [l2 r2] eqn:Hextract.
  change (r2 = Ok kerning_data) in Hkerning. subst r2.
  run. rewrite Hparse. run. rewrite Hcollect. run. rewrite Hextract. run.
  unfold write_plist.
  destruct (bool_decide (kerning_data = ∅)); destruct (can_open_wb output_plist_path);
    destruct (dump_interrupted kerning_data) as [[written e]|];
    run; (split; [reflexivity|]);
    (split;
       [ intros Hopen; try discriminate Hopen
       | intros written' e' Hopen Hdump; try discriminate Hopen;
         try discriminate Hdump; try (injection Hdump as <- <-) ]);
    repeat (rewrite elem_of_cons || rewrite elem_of_app); tauto.
Qed.

(** X13.  The kerning converter touches no file but its output: when it
    returns, every other path holds what it held, and the output path
    holds what it held, or the serialization of a table, or what the
    serializer had written of a table when it gave up. *)
Theorem kerning_converter_touches_only_output
    (fea_file_path output_plist_path : string) (font_path : option string)
    (fs fs' : filesystem) :
  outcome (convert_kerning_fea_to_plist fea_file_path output_plist_path font_path fs)
  = Ok fs' ->
  (forall path, path <> output_plist_path -> fs' !! path = fs !! path) /\
  (fs' = fs \/
   exists kerning_data : kerning_table,
     fs' !! output_plist_path = Some (plistlib_dump kerning_data) \/
     exists written e,
       dump_interrupted kerning_data = Some (written, e) /\
       fs' !! output_plist_path = Some written).
Proof.
  unfold convert_kerning_fea_to_plist. intros ([] & _ & Hrun)%bind_Ok_inv.
  destruct (negb (exists_path fs fea_file_path)).
  - injection Hrun as <-. by split; [|left].
  - apply bind_Ok_inv in Hrun as (names & _ & Hrun).
    apply bind_Ok_inv in Hrun as ([ff|] & _ & Hrun);
      [|injection Hrun as <-; by split; [|left]].
    apply bind_Ok_inv in Hrun as (gc & _ & Hrun).
    apply bind_Ok_inv in Hrun as (kd & _ & Hrun).
    apply bind_Ok_inv in Hrun as (_ & _ & Hrun).
    rewrite write_plist_outcome in Hrun. injection Hrun as <-.
    destruct (can_open_wb output_plist_path); [|by split; [|left]].
    destruct (dump_interrupted kd) as [[written e]|] eqn:Hdump.
    + split; [intros path Hne; by rewrite lookup_insert_ne|].
      right. exists kd. right. exists written, e. by rewrite lookup_insert_eq.
    + split; [intros path Hne; by rewrite lookup_insert_ne|].
      right. exists kd. left. by rewrite lookup_insert_eq.
Qed.

End ConverterCoverage.

Lemma parse_failure_writes_nothing_witness :
  outcome (@KernConvertor.convert_kerning_fea_to_plist
             SampleLibraries.kern_convertor_parse_error
             "bad.fea" "kerning.plist" None {[ "bad.fea" := "pos A" ]})
  = Ok {[ "bad.fea" := "pos A" ]}.
Proof.
  apply (@parse_failure_writes_nothing SampleLibraries.kern_convertor_parse_error
           "bad.fea" "kerning.plist" None {[ "bad.fea" := "pos A" ]}
           "pos A" ∅ (ParseError "Unknown glyph class")).
  - vm_compute. reflexivity.
  - reflexivity.
  - reflexivity.
Defined.

Lemma class_reference_aborts_or_is_kerned_as_glyph_witness :
  outcome (@KernConvertor.convert_kerning_fea_to_plist
             SampleLibraries.kern_convertor_parse_error
             "features.fea" "kerning.plist" None
             {[ "features.fea"
                  := "lookup kern_x { pos @missing V -50; pos A V -10; } kern_x;" ]})
  = Ok {[ "features.fea"
            := "lookup kern_x { pos @missing V -50; pos A V -10; } kern_x;" ]}.
Proof.
  apply (proj1 (@class_reference_aborts_or_is_kerned_as_glyph
                  SampleLibraries.kern_convertor_parse_error)
           "features.fea" "kerning.plist" None
           {[ "features.fea"
                := "lookup kern_x { pos @missing V -50; pos A V -10; } kern_x;" ]}
           "lookup kern_x { pos @missing V -50; pos A V -10; } kern_x;" ∅
           (ParseError "Unknown glyph class")).
  - vm_compute. reflexivity.
  - reflexivity.
  - reflexivity.
Defined.

Lemma unresolved_nested_reference_aborts_conversion_witness :
  @KernConvertor.convert_kerning_fea_to_plist
    SampleLibraries.kern_convertor_parse_error
    "features.fea" "kerning.plist" None
    {[ "features.fea" := "@b = [@a C]; @a = [A B];" ]}
  = ([KernConvertor.LogRecord KernConvertor.INFO
        (KernConvertor.AttemptingToConvert "features.fea" "kerning.plist");
      KernConvertor.LogRecord KernConvertor.INFO KernConvertor.ProceedingWithoutGlyphSet;
      KernConvertor.LogRecord KernConvertor.INFO KernConvertor.ParsingFea;
      KernConvertor.LogRecord KernConvertor.ERROR
        (KernConvertor.ErrorParsing (ParseError "Unknown glyph class"))],
     Ok {[ "features.fea" := "@b = [@a C]; @a = [A B];" ]}).
Proof.
  apply (@unresolved_nested_reference_aborts_conversion
           SampleLibraries.kern_convertor_parse_error
           "features.fea" "kerning.plist" None
           {[ "features.fea" := "@b = [@a C]; @a = [A B];" ]}
           "@b = [@a C]; @a = [A B];" ∅ (ParseError "Unknown glyph class")).
  - vm_compute. reflexivity.
  - reflexivity.
  - reflexivity.
Defined.

Lemma converter_writes_extracted_table_witness :
  outcome (@KernConvertor.convert_kerning_fea_to_plist SampleLibraries.kern_convertor
             "features.fea" "kerning.plist" None {[ "features.fea" := "lookup" ]})
  = Ok (<["kerning.plist" := "<plist/>"]> {[ "features.fea" := "lookup" ]}) /\
  outcome (@KernConvertor.convert_kerning_fea_to_plist
             SampleLibraries.kern_convertor_overflow
             "features.fea" "kerning.plist" None {[ "features.fea" := "lookup" ]})
  = Ok (<["kerning.plist" := "<plist>"]> {[ "features.fea" := "lookup" ]}).
Proof.
  assert (({[ "features.fea" := "lookup" ]} : filesystem) !! "features.fea"
          = Some "lookup") as Hfile by (vm_compute; reflexivity).
  assert (outcome (KernConvertor.extract_kerning ∅ Sample.kern_base)
          = Ok {[ "A" := {[ "C" := (-75)%Z; "D" := (-75)%Z ]};
                  "B" := {[ "C" := (-75)%Z; "D" := (-75)%Z ]} ]}) as Hkerning
    by (vm_compute; reflexivity).
  split.
  - apply (@converter_writes_extracted_table SampleLibraries.kern_convertor
             "features.fea" "kerning.plist" None {[ "features.fea" := "lookup" ]}
             "lookup" ∅ Sample.kern_base ∅ _ Hfile eq_refl eq_refl eq_refl Hkerning).
  - apply (@converter_writes_extracted_table SampleLibraries.kern_convertor_overflow
             "features.fea" "kerning.plist" None {[ "features.fea" := "lookup" ]}
             "lookup" ∅ Sample.kern_base ∅ _ Hfile eq_refl eq_refl eq_refl Hkerning).
Defined.

Lemma kerning_converter_touches_only_output_witness :
  (<["kerning.plist" := "<plist/>"]> {[ "features.fea" := "lookup" ]} : filesystem)
    !! "features.fea"
  = ({[ "features.fea" := "lookup" ]} : filesystem) !! "features.fea".
Proof.
  assert (outcome (@KernConvertor.convert_kerning_fea_to_plist
                     SampleLibraries.kern_convertor
                     "features.fea" "kerning.plist" None {[ "features.fea" := "lookup" ]})
          = Ok (<["kerning.plist" := "<plist/>"]> {[ "features.fea" := "lookup" ]}))
    as Hrun by (vm_compute; reflexivity).
  apply (proj1 (@kerning_converter_touches_only_output SampleLibraries.kern_convertor
                  "features.fea" "kerning.plist" None {[ "features.fea" := "lookup" ]}
                  (<["kerning.plist" := "<plist/>"]> {[ "features.fea" := "lookup" ]})
                  Hrun)).
  discriminate.
Defined.

(** ** The groups converter *)

Section GroupsFacts.
Import KernGroups Vocabulary.
Context `{!Externals}.

(** A class between whose brackets no word is left by [strip] adds
    nothing and prints nothing. *)
Lemma add_regex_group_no_word class_name glyphs_str (data : groups_table) :
  Forall (fun glyph => str_strip glyph = EmptyString) (str_split glyphs_str) ->
  add_regex_group (class_name, glyphs_str) data = ([], Ok data).
Proof.
  intros Hwords. unfold add_regex_group.
  assert (List.filter (fun glyph => Py.str_truthy (str_strip glyph)) (str_split glyphs_str)
          = []) as ->; [|reflexivity].
  induction Hwords as [|glyph l Hglyph _ IH]; [reflexivity|].
  cbn [List.filter]. by rewrite Hglyph.
Qed.

Lemma add_regex_group_keeps m (data : groups_table) :
  no_empty_group data ->
  exists data', outcome (add_regex_group m data) = Ok data' /\ no_empty_group data'.
Proof.
  intros Hdata. destruct m as [class_name glyphs_str]. unfold add_regex_group.
  destruct (str_strip <$> List.filter _ (str_split glyphs_str)) as [|g gs].
  - by exists data.
  - eexists. split; [reflexivity|].
    intros k l [[_ <-] | [_ Hl]]%lookup_insert_Some; [done | by eapply Hdata].
Qed.

Lemma regex_groups_not_empty (fs : filesystem) fea_file_path (data : groups_table) :
  outcome (parse_groups_with_regex fs fea_file_path) = Ok data ->
  no_empty_group data.
Proof.
  unfold parse_groups_with_regex. destruct (fs !! fea_file_path) as [content|]; [|done].
  destruct (for_each_returns add_regex_group no_empty_group (re_findall content))
    with (s := (∅ : groups_table)) as (data' & Hrun & Hkeeps).
  - intros m s _ Hs. by apply add_regex_group_keeps.
  - intros k l Hl. by rewrite lookup_empty in Hl.
  - rewrite Hrun. by intros [= <-].
Qed.

(** The converter always returns.  It leaves the file system as it was,
    or with the output path holding the serialization of the groups it
    extracted, which are not none, or what the serializer had written of
    them when it gave up. *)
Lemma groups_converter_outcome (fea_file_path output_plist_path : string)
    (fs : filesystem) :
  exists fs',
    outcome (extract_and_write_kerning_groups fea_file_path output_plist_path fs) = Ok fs' /\
    (fs' = fs \/
     exists data : groups_table,
       data <> ∅ /\
       outcome (extract_groups fs fea_file_path) = Ok data /\
       (fs' = <[output_plist_path := plistlib_dump data]> fs \/
        exists written e,
          dump_interrupted data = Some (written, e) /\
          fs' = <[output_plist_path := written]> fs)).
Proof.
  unfold extract_and_write_kerning_groups.
  destruct (negb (exists_path fs fea_file_path));
    [exists fs; by split; [|left]|].
  destruct (extract_groups fs fea_file_path) as [l [data|e]]; run.
  - case_bool_decide as Hempty; run; [by exists fs; split; [|left]|].
    destruct (can_open_wb output_plist_path); run.
    + destruct (dump_interrupted data) as [[written e]|] eqn:Hdump; run.
      * eexists. split; [reflexivity|]. right. exists data.
        do 2 (split; [done|]). right. by exists written, e.
      * eexists. split; [reflexivity|]. right. exists data.
        do 2 (split; [done|]). by left.
    + exists fs. split; [reflexivity|by left].
  - exists fs. split; [reflexivity|by left].
Qed.

(** C10.  On an input file that exists: when the extraction, by the
    parser or by the regular-expression fallback, yields no group, the
    converter says so and writes nothing, and leaves the output path
    alone; it always returns, and whenever it leaves the file system
    changed it has opened the output for a mapping with at least one
    group, which the output holds, or holds as far as the serializer got
    with it.  The fallback never records a group without members, and a
    class definition between whose brackets [split] and [strip] leave no
    word is dropped without a printed line. *)
Theorem groups_written_only_when_some_extracted
    (fea_file_path output_plist_path : string) (fs : filesystem) :
  is_Some (fs !! fea_file_path) ->
  (outcome (extract_groups fs fea_file_path) = Ok ∅ ->
   outcome (extract_and_write_kerning_groups fea_file_path output_plist_path fs) = Ok fs /\
   NoGroupsExtracted
     ∈ emitted (extract_and_write_kerning_groups fea_file_path output_plist_path fs)) /\
  (exists fs',
     outcome (extract_and_write_kerning_groups fea_file_path output_plist_path fs) = Ok fs' /\
     (fs' = fs \/
      exists data : groups_table,
        data <> ∅ /\
        outcome (extract_groups fs fea_file_path) = Ok data /\
        (fs' = <[output_plist_path := plistlib_dump data]> fs \/
         exists written e,
           dump_interrupted data = Some (written, e) /\
           fs' = <[output_plist_path := written]> fs))) /\
  (forall data : groups_table,
     outcome (parse_groups_with_regex fs fea_file_path) = Ok data -> no_empty_group data) /\
  (forall class_name glyphs_str (data : groups_table),
     Forall (fun glyph => str_strip glyph = EmptyString) (str_split glyphs_str) ->
     add_regex_group (class_name, glyphs_str) data = ([], Ok data)).
Proof.
  intros [content Hfile].
  split; [|split; [|split]].
  - intros Hnone. unfold extract_and_write_kerning_groups.
    rewrite (exists_path_Some _ _ _ Hfile). cbn [negb].
    destruct (extract_groups fs fea_file_path) as [l r].
    change (r = Ok ∅) in Hnone. subst r. run.
    rewrite (bool_decide_eq_true_2 _ (eq_refl (∅ : groups_table))). run.
    split; [reflexivity|].
    repeat (rewrite elem_of_cons || rewrite elem_of_app). tauto.
  - apply groups_converter_outcome.
  - apply regex_groups_not_empty.
  - apply add_regex_group_no_word.
Qed.

End GroupsFacts.

Lemma groups_written_only_when_some_extracted_witness :
  outcome (@KernGroups.extract_and_write_kerning_groups SampleLibraries.kern_groups
             "features.fea" "groups.plist" {[ "features.fea" := "@empty = [ ];" ]})
  = Ok {[ "features.fea" := "@empty = [ ];" ]}.
Proof.
  assert (is_Some (({[ "features.fea" := "@empty = [ ];" ]} : filesystem) !! "features.fea"))
    as Hfile by (exists "@empty = [ ];"; vm_compute; reflexivity).
  destruct (proj1 (@groups_written_only_when_some_extracted SampleLibraries.kern_groups
                     "features.fea" "groups.plist"
                     {[ "features.fea" := "@empty = [ ];" ]} Hfile)) as [Hout _].
  - vm_compute. reflexivity.
  - exact Hout.
Defined.

Section GroupNames.
Import KernGroups Vocabulary Coverage.
Context `{!Externals}.

Lemma startswith_append prefix s : Py.startswith (prefix +:+ s) prefix = true.
Proof.
  induction prefix as [|c prefix IH]; [by destruct s|].
  change (String c prefix +:+ s) with (String c (prefix +:+ s)).
  cbn [Py.startswith]. by rewrite Ascii.eqb_refl.
Qed.

Lemma prefixed_name class_name :
  has_kern_prefix (determine_group_type class_name +:+ class_name) = true.
Proof.
  unfold has_kern_prefix.
  destruct (determine_group_type_cases class_name) as [-> | ->];
    rewrite startswith_append; [reflexivity | apply orb_true_r].
Qed.

Lemma add_regex_group_prefixed m (data data' : groups_table) :
  all_prefixed data -> outcome (add_regex_group m data) = Ok data' -> all_prefixed data'.
Proof.
  intros Hdata. destruct m as [class_name glyphs_str]. unfold add_regex_group.
  destruct (str_strip <$> List.filter _ (str_split glyphs_str)) as [|g gs].
  - by intros [= <-].
  - unfold print. rewrite bind_emit. intros [= <-] k l.
    intros [[<- _] | [_ Hl]]%lookup_insert_Some;
      [apply prefixed_name | by apply (Hdata k l)].
Qed.

Lemma add_parsed_group_prefixed item (data data' : groups_table) :
  all_prefixed data -> outcome (add_parsed_group item data) = Ok data' -> all_prefixed data'.
Proof.
  intros Hdata. destruct item as [class_name def]. unfold add_parsed_group.
  intros (glyph_list & _ & Hrun)%bind_Ok_inv. revert Hrun.
  unfold print. rewrite bind_emit. intros [= <-] k l.
  intros [[<- _] | [_ Hl]]%lookup_insert_Some;
    [apply prefixed_name | by apply (Hdata k l)].
Qed.

Lemma all_prefixed_empty : all_prefixed ∅.
Proof. intros k l Hl. by rewrite lookup_empty in Hl. Qed.

(** X16.  Whatever strategy yields them, the extracted groups carry a UFO
    kerning prefix: every name of the mapping begins with [public.kern1.]
    or with [public.kern2.]. *)
Theorem extracted_groups_carry_kern_prefix
    (fs : filesystem) (fea_file_path : string) (data : groups_table)
    (group_name : string) (glyph_list : list string) :
  outcome (extract_groups fs fea_file_path) = Ok data ->
  data !! group_name = Some glyph_list ->
  has_kern_prefix group_name = true.
Proof.
  intros Hrun. revert group_name glyph_list. fold (all_prefixed data).
  unfold extract_groups in Hrun.
  apply try_except_Ok_inv in Hrun as [Hparser | (e & _ & Hregex)].
  - unfold parse_groups_with_parser in Hparser.
    destruct (fs !! fea_file_path) as [content|]; [|done].
    destruct (Parser_glyphClassDefs content) as [[[|item items]|]|e]; try done.
    revert Hparser. unfold print. rewrite bind_emit.
    apply for_each_invariant; [|apply all_prefixed_empty].
    intros x s s' _. apply add_parsed_group_prefixed.
  - apply bind_Ok_inv in Hregex as (_ & _ & Hregex).
    apply bind_Ok_inv in Hregex as (_ & _ & Hregex).
    unfold parse_groups_with_regex in Hregex.
    destruct (fs !! fea_file_path) as [content|]; [|done].
    revert Hregex. apply for_each_invariant; [|apply all_prefixed_empty].
    intros x s s' _. apply add_regex_group_prefixed.
Qed.

End GroupNames.

Lemma extracted_groups_carry_kern_prefix_witness :
  Coverage.has_kern_prefix "public.kern2.RightCaps" = true.
Proof.
  apply (@extracted_groups_carry_kern_prefix SampleLibraries.kern_groups_parsed
           {[ "features.fea" := "@RightCaps = [A B];" ]} "features.fea"
           {[ "public.kern2.RightCaps" := ["A"; "B"] ]}
           "public.kern2.RightCaps" ["A"; "B"]).
  - vm_compute. reflexivity.
  - vm_compute. reflexivity.
Defined.

(** ** The groups converter, from the command line *)

Section GroupsCommand.
Import KernGroups KernGroupsMain.
Context `{!Externals}.

(** X19.  The command line of the groups converter: with any number of
    arguments other than none or two it prints the usage and exits with
    status 1, converting nothing; with none it does what it does for
    [features.fea] and [groups.plist]; and when it converts it comes back
    without an exception, the file system as it was, or with the output
    path holding the serialization of a mapping that is not empty, or
    what the serializer had written of such a mapping when it gave up. *)
Theorem groups_command_line (argv : list string) (fs : filesystem) :
  (length argv <> 1 -> length argv <> 3 ->
   main argv fs = ([UsageLine; UsageDefaultsLine], SystemExit 1)) /\
  (forall prog, main [prog] fs = main [prog; "features.fea"; "groups.plist"] fs) /\
  (forall prog input_fea_file output_plist_file,
     argv = [prog; input_fea_file; output_plist_file] ->
     exists fs',
       snd (main argv fs) = Finished (Ok fs') /\
       (fs' = fs \/
        exists data : groups_table,
          data <> ∅ /\
          (fs' = <[output_plist_file := plistlib_dump data]> fs \/
           exists written e,
             dump_interrupted data = Some (written, e) /\
             fs' = <[output_plist_file := written]> fs))).
Proof.
  split; [|split].
  - intros H1 H3. by destruct argv as [|a [|b [|c [|d argv]]]].
  - reflexivity.
  - intros prog input output ->. unfold main.
    destruct (groups_converter_outcome input output fs) as (fs' & Hrun & Hfs).
    destruct (extract_and_write_kerning_groups input output fs) as [l r].
    change (r = Ok fs') in Hrun. subst r. exists fs'. split; [reflexivity|].
    destruct Hfs as [-> | (data & Hne & _ & Hfs)]; [by left|].
    right. by exists data.
Qed.

(** X20.  When the parser raises, or the parser object has no class
    definitions to offer, the groups are those the regular-expression
    fallback finds in the text of the file. *)
Theorem groups_fall_back_to_regex
    (fs : filesystem) (fea_file_path content : string) :
  fs !! fea_file_path = Some content ->
  (Parser_glyphClassDefs content = Ok None \/
   Parser_glyphClassDefs content = Ok (Some []) \/
   exists e, Parser_glyphClassDefs content = Raise e) ->
  outcome (extract_groups fs fea_file_path)
  = outcome (for_each add_regex_group (re_findall content) ∅) /\
  FallingBackToRegex ∈ emitted (extract_groups fs fea_file_path).
Proof.
  intros Hfile Hparser.
  unfold extract_groups, parse_groups_with_parser, parse_groups_with_regex.
  rewrite Hfile.
  destruct (for_each add_regex_group (re_findall content) ∅) as [l r].
  destruct Hparser as [-> | [-> | [e ->]]]; run;
    (split; [reflexivity|]);
    repeat (rewrite elem_of_cons || rewrite elem_of_app); tauto.
Qed.

End GroupsCommand.

Lemma groups_command_line_witness :
  @KernGroupsMain.main SampleLibraries.kern_groups ["kern-groups.py"; "only-one"] ∅
  = ([KernGroupsMain.UsageLine; KernGroupsMain.UsageDefaultsLine],
     KernGroupsMain.SystemExit 1).
Proof.
  apply (proj1 (@groups_command_line SampleLibraries.kern_groups
                  ["kern-groups.py"; "only-one"] ∅)).
  - discriminate.
  - discriminate.
Defined.

Lemma groups_fall_back_to_regex_witness :
  outcome (@KernGroups.extract_groups SampleLibraries.kern_groups
             {[ "features.fea" := "@empty = [ ];" ]} "features.fea")
  = outcome (for_each (@KernGroups.add_regex_group SampleLibraries.kern_groups)
               (@KernGroups.re_findall SampleLibraries.kern_groups "@empty = [ ];") ∅).
Proof.
  apply (@groups_fall_back_to_regex SampleLibraries.kern_groups
           {[ "features.fea" := "@empty = [ ];" ]} "features.fea" "@empty = [ ];").
  - vm_compute. reflexivity.
  - right. right. exists (ParseError "features.fea"). reflexivity.
Defined.

(** ** Letter case in lookup names *)

Section LookupNames.
Import KernConvertor Coverage.

Lemma lower_upper_ascii c : Py.lower_ascii (Py.upper_ascii c) = Py.lower_ascii c.
Proof. by destruct c as [[] [] [] [] [] [] [] []]. Qed.

Lemma lower_upper s : Py.lower (Py.upper s) = Py.lower s.
Proof.
  induction s as [|c r IH]; [reflexivity|].
  cbn [Py.upper Py.lower]. by rewrite lower_upper_ascii, IH.
Qed.

(** X21.  The choice of the kerning lookups does not depend on the case
    of the letters of their names: a lookup named in upper case is chosen
    exactly when the lookup itself is, and yields the same table. *)
Theorem lookup_choice_ignores_letter_case
    (glyph_classes : class_table) (lookup_name : string)
    (body : list lookup_statement) (kerning_data : kerning_table) :
  kern_lookup (LookupBlock (Py.upper lookup_name) body)
  = kern_lookup (LookupBlock lookup_name body) /\
  outcome (process_statement glyph_classes (LookupBlock (Py.upper lookup_name) body)
             kerning_data)
  = outcome (process_statement glyph_classes (LookupBlock lookup_name body) kerning_data).
Proof.
  cbn [kern_lookup process_statement]. rewrite lower_upper.
  split; [reflexivity|].
  destruct (Py.startswith (Py.lower lookup_name) "kern"); [|reflexivity].
  unfold logging. by rewrite !bind_emit.
Qed.

End LookupNames.
